(** * drive.client: query builder, resumable transfer loop, request set-up

    A shallow embedding of the parts of [src/drive/client.py] that carry
    logic of their own: the query-string builder ([_make_querystring],
    [_make_query_clause], [_serialize_query_value]), the resumable branch
    of [_execute_file_request] with [handle_progressless_iter], and the
    request set-up of [list_files] and [update_file].

    Python values that reach this code are dynamically typed, so they are
    embedded as the tagged type [pyval]; strings are byte strings (the two
    characters the serializer rewrites are ASCII, so their UTF-8 bytes are
    never part of another character).  Exceptions are values of [exn] and a
    call that may raise returns a [result]. *)

From Stdlib Require Import ZArith QArith String Ascii List DecimalString Lia.
From stdpp Require Import gmap strings.
Import ListNotations.

Open Scope string_scope.

(** ** Python values and exceptions *)

Inductive pyval : Type :=
| VNone
| VBool (b : bool)
| VInt (z : Z)
| VStr (s : string).

(** [str(value)]. *)
Definition py_str (v : pyval) : string :=
  match v with
  | VNone => "None"
  | VBool true => "True"
  | VBool false => "False"
  | VInt z => NilZero.string_of_int (Z.to_int z)
  | VStr s => s
  end.

(** Truth value of an object, as tested by [if value:]. *)
Definition truthy (v : pyval) : bool :=
  match v with
  | VNone => false
  | VBool b => b
  | VInt z => negb (Z.eqb z 0)
  | VStr s => negb (String.eqb s "")
  end.

(** [isinstance(value, bool)]. *)
Definition is_bool (v : pyval) : bool :=
  match v with VBool _ => true | _ => false end.

(** [a == b] between two values ([True == 1] holds in Python: [bool] is a
    subclass of [int]). *)
Definition py_eq (a b : pyval) : bool :=
  match a, b with
  | VNone, VNone => true
  | VStr s, VStr t => String.eqb s t
  | VInt x, VInt y => Z.eqb x y
  | VBool x, VBool y => Bool.eqb x y
  | VBool x, VInt y | VInt y, VBool x => Z.eqb (if x then 1 else 0) y
  | _, _ => false
  end.

Inductive exn : Type :=
| HttpError (status : Z)          (* apiclient.errors.HttpError, [err.resp.status] *)
| HttpLib2Error (msg : string)    (* httplib2.HttpLib2Error: transport errors *)
| IOError (msg : string)
| ValueError (msg : string)
| OtherError (name : string).

Inductive result (A : Type) : Type :=
| Ok (a : A)
| Raise (e : exn).
Arguments Ok {A} a.
Arguments Raise {A} e.

Definition bind {A B : Type} (r : result A) (k : A -> result B) : result B :=
  match r with
  | Ok a => k a
  | Raise e => Raise e
  end.

(** ** String primitives *)

(** [sep.join(parts)]. *)
Fixpoint str_join (sep : string) (parts : list string) : string :=
  match parts with
  | [] => ""
  | [p] => p
  | p :: rest => p ++ sep ++ str_join sep rest
  end.

(** The scan of [s.replace(old, new)] for a non-empty [old]: left to right,
    occurrences do not overlap; [skip] counts the characters of a matched
    occurrence still to be dropped. *)
Fixpoint replace_scan (old new : string) (skip : nat) (s : string) : string :=
  match s with
  | EmptyString => ""
  | String c s' =>
      match skip with
      | S k => replace_scan old new k s'
      | O =>
          if String.prefix old s
          then new ++ replace_scan old new (String.length old - 1) s'
          else String c (replace_scan old new 0 s')
      end
  end.

(** With an empty [old], Python puts [new] before every character and at
    the end. *)
Fixpoint replace_empty (new s : string) : string :=
  match s with
  | EmptyString => new
  | String c s' => new ++ String c (replace_empty new s')
  end.

(** [s.replace(old, new)]. *)
Definition replace (old new s : string) : string :=
  match old with
  | EmptyString => replace_empty new s
  | _ => replace_scan old new 0 s
  end.

(** ** Query builder *)

(** A clause is a Python tuple. *)
Definition pytuple : Type := list pyval.

(** The documented shape [(field, operator, value)]. *)
Definition clause3 (field op : string) (value : pyval) : pytuple :=
  [VStr field; VStr op; value].

(** [return "'%s'" % str(value).replace("\\", "\\\\").replace("'", "\\'")]
    after the [bool] test. *)
Definition _serialize_query_value (value : pyval) : string :=
  if is_bool value
  then (if truthy value then "true" else "false")
  else "'" ++ replace "'" "\'" (replace "\" "\\" (py_str value)) ++ "'".

(** ["%s %s %s" % (a, b, c)]. *)
Definition fmt3 (a b c : pyval) : string :=
  py_str a ++ " " ++ py_str b ++ " " ++ py_str c.

Definition _make_query_clause (field op value : pyval) (negation : bool) : string :=
  let svalue := _serialize_query_value value in
  let p :=
    if py_eq op (VStr "in")
    then fmt3 (VStr svalue) op field
    else fmt3 field op (VStr svalue) in
  if negation then "not " ++ p else p.

(** [field, op, value = t]: the tuple must have exactly three elements. *)
Definition unpack3 (t : pytuple) : result (pyval * pyval * pyval) :=
  match t with
  | [a; b; c] => Ok (a, b, c)
  | _ :: _ :: _ :: _ :: _ => Raise (ValueError "too many values to unpack (expected 3)")
  | _ => Raise (ValueError "not enough values to unpack")
  end.

(** The [for field, op, value in clauses] loop, [parts] being the list
    built so far. *)
Fixpoint collect_parts (clauses : list pytuple) (parts : list string)
  : result (list string) :=
  match clauses with
  | [] => Ok parts
  | t :: rest =>
      bind (unpack3 t) (fun '(field, op, value) =>
        collect_parts rest (parts ++ [_make_query_clause field op value false])%list)
  end.

Definition _make_querystring (clauses : list pytuple) (join : string)
  : result string :=
  bind (collect_parts clauses []) (fun parts =>
    Ok (str_join (" " ++ join ++ " ") parts)).

(** The default [join="and"]. *)
Definition _make_querystring_default (clauses : list pytuple) : result string :=
  _make_querystring clauses "and".

(** ** Requests, responses and the outside world *)

(** [MediaIoBaseUpload(reader, mimetype=..., chunksize=CHUNKSIZE, resumable=...)]. *)
Record media_upload : Type := {
  m_mimetype : string;
  m_chunksize : Z;
  m_resumable : bool
}.

(** A keyword argument of the [files().update] call, as [update_file] stores
    it in its [kw] dictionary. *)
Inductive kwval : Type :=
| KStr (s : string)
| KBody (name : pyval)            (* the body dictionary with its one key, name *)
| KMedia (m : media_upload)
| KBool (b : bool).

(** The remote calls this file's methods set up. *)
Inductive api_call : Type :=
| FilesList (q : string) (pageSize : pyval)
            (supportsAllDrives includeItemsFromAllDrives : bool)
| FilesUpdate (kw : gmap string kwval).

(** What the SDK's request object exposes to [_execute_file_request]. *)
Record request : Type := {
  req_call : api_call;
  resumable : bool;
  uri : string
}.

#[warnings="-register-all"] Inductive json : Type :=
| JNull
| JBool (b : bool)
| JNum (z : Z)
| JStr (s : string)
| JArr (l : list json)
| JObj (kvs : list (string * json)).

(** A decoded response body: a dictionary. *)
Definition response : Type := list (string * json).

(** [drive.files.File(metadata, client=self, supports_all_drives=...)]. *)
Record File : Type := {
  f_metadata : json;
  f_supports_all_drives : bool
}.

(** What [_execute_file_request] and the public methods hand back. *)
Inductive pyret : Type :=
| RNone
| RFile (f : File)
| RFiles (fs : list File).

Inductive chunk_result : Type :=
| ChunkOk (progress : option Q) (resp : option response)
    (* [progress, response = req.next_chunk()]; [progress] is the fraction
       [progress.progress()] of a progress object, or [None] *)
| ChunkRaise (e : exn).

Inductive event : Type :=
| EvExecute (r : request)                 (* [req.execute()] *)
| EvUpload (p : Q)                        (* the [Upload %d%%] status line *)
| EvGiveUp                                (* [Failed to make progress ...] *)
| EvCaught (e : exn) (sleeptime : Q) (k : Z)   (* [Caught exception ...] *)
| EvSleep (sleeptime : Q).                (* [time.sleep(sleeptime)] *)

(** The effects a call has had so far: how many chunks were requested, how
    many random numbers were drawn, and what was executed, printed and slept. *)
Record world : Type := {
  calls : nat;
  rands : nat;
  log : list event
}.

Definition world0 : world := {| calls := 0; rands := 0; log := [] |}.

Definition emit (ev : event) (w : world) : world :=
  {| calls := calls w; rands := rands w; log := (log w ++ [ev])%list |}.

Definition tick_call (w : world) : world :=
  {| calls := S (calls w); rands := rands w; log := log w |}.

Definition tick_rand (w : world) : world :=
  {| calls := calls w; rands := S (rands w); log := log w |}.

(** The sleeps of a log, in order. *)
Fixpoint sleeps (l : list event) : list Q :=
  match l with
  | [] => []
  | EvSleep t :: l' => t :: sleeps l'
  | _ :: l' => sleeps l'
  end.

(** Number of times to retry failed downloads. *)
Definition NUM_RETRIES : Z := 5.

(** [except RETRYABLE_ERRORS]: transport and file IO errors. *)
Definition is_retryable_class (e : exn) : bool :=
  match e with
  | HttpLib2Error _ | IOError _ => true
  | _ => false
  end.

(** The three states of the loop as the specification names them. *)
Inductive loop_status : Type :=
| AWAITING_CHUNK_RESULT
| SUCCESS
| FATAL_FAILURE.

(** Local variables of the resumable branch. *)
Record loop_state : Type := {
  progressless_iters : Z;
  st_response : option response;
  st_progress : option Q
}.

Definition loop_state0 : loop_state :=
  {| progressless_iters := 0; st_response := None; st_progress := None |}.

(** [print_with_carriage_return('Upload %d%%' % ...)] under [if progress:]. *)
Definition report_progress (p : option Q) (w : world) : world :=
  match p with
  | Some q => emit (EvUpload q) w
  | None => w
  end.

Fixpoint str_contains (sub s : string) : bool :=
  String.prefix sub s ||
  match s with
  | EmptyString => false
  | String _ s' => str_contains sub s'
  end.

Fixpoint dict_get {A : Type} (k : string) (d : list (string * A)) : option A :=
  match d with
  | [] => None
  | (k', v) :: d' => if String.eqb k k' then Some v else dict_get k d'
  end.

(** [for f in x] over a decoded value. *)
Definition py_iter (x : json) : result (list json) :=
  match x with
  | JArr l => Ok l
  | JObj kvs => Ok (map (fun kv => JStr (fst kv)) kvs)
  | JStr s => Ok (map (fun c => JStr (String c "")) (list_ascii_of_string s))
  | _ => Raise (OtherError "TypeError")
  end.

Section Client.

(** The collaborators: the outcome of [req.execute()], of the [i]-th call
    of [req.next_chunk()], and of the [i]-th call of [random.random()]. *)
Variable execute : request -> result response.
Variable next_chunk : nat -> chunk_result.
Variable random : nat -> Q.

Definition handle_progressless_iter (error : exn) (progressless_iters : Z)
           (w : world) : result unit * world :=
  if (progressless_iters >? NUM_RETRIES)%Z
  then (Raise error, emit EvGiveUp w)
  else
    let sleeptime := (random (rands w) * inject_Z (2 ^ progressless_iters))%Q in
    let w := tick_rand w in
    let w := emit (EvCaught error sleeptime progressless_iters) w in
    (Ok tt, emit (EvSleep sleeptime) w).

(** The [if error:] branch after the [try]. *)
Definition on_error (error : exn) (st : loop_state) (w : world)
  : result loop_state * world :=
  let k := (progressless_iters st + 1)%Z in
  match handle_progressless_iter error k w with
  | (Ok _, w') =>
      (Ok {| progressless_iters := k;
             st_response := st_response st;
             st_progress := st_progress st |}, w')
  | (Raise e, w') => (Raise e, w')
  end.

(** One iteration of [while response is None]. *)
Definition loop_body (st : loop_state) (w : world) : result loop_state * world :=
  match next_chunk (calls w) with
  | ChunkOk progress resp =>
      let w := report_progress progress (tick_call w) in
      (Ok {| progressless_iters := 0;
             st_response := resp;
             st_progress := progress |}, w)
  | ChunkRaise err =>
      let w := tick_call w in
      match err with
      | HttpError status =>
          if (status <? 500)%Z then (Raise err, w) else on_error err st w
      | _ =>
          if is_retryable_class err then on_error err st w else (Raise err, w)
      end
  end.

(** The loop; [None] when [fuel] iterations were not enough to leave it. *)
Fixpoint transfer_loop (fuel : nat) (st : loop_state) (w : world)
  : option (result loop_state * world) :=
  match st_response st with
  | Some _ => Some (Ok st, w)
  | None =>
      match fuel with
      | O => None
      | S fuel' =>
          match loop_body st w with
          | (Ok st', w') => transfer_loop fuel' st' w'
          | (Raise e, w') => Some (Raise e, w')
          end
      end
  end.

Definition _execute_file_request (fuel : nat) (req : request) (w : world)
  : option (result pyret * world) :=
  if negb (resumable req) then
    let supports_all_drives := str_contains "supportsAllDrives=true" (uri req) in
    let w := emit (EvExecute req) w in
    match execute req with
    | Raise e => Some (Raise e, w)
    | Ok resp =>
        let mk f := {| f_metadata := f; f_supports_all_drives := supports_all_drives |} in
        match dict_get "files" resp with
        | Some fs =>
            match py_iter fs with
            | Ok l => Some (Ok (RFiles (map mk l)), w)
            | Raise e => Some (Raise e, w)
            end
        | None =>
            match dict_get "file" resp with
            | Some f => Some (Ok (RFile (mk f)), w)
            | None => Some (Ok (RFile (mk (JObj resp))), w)
            end
        end
    end
  else
    match transfer_loop fuel loop_state0 w with
    | None => None
    | Some (Raise e, w') => Some (Raise e, w')
    | Some (Ok st, w') => Some (Ok RNone, report_progress (st_progress st) w')
    end.

(** [self._files.list(...)] and [self._files.update(...)]: the SDK turns
    a call into a request object. *)
Variable service : api_call -> request.

Definition list_files_clauses (name_equals name_contains mimetype parents_in : pyval)
  : list pytuple :=
  let query_clauses := [[VStr "trashed"; VStr "="; VBool false]] in
  let query_clauses :=
    if truthy name_equals
    then (query_clauses ++ [[VStr "name"; VStr "="; name_equals]])%list
    else query_clauses in
  let query_clauses :=
    if truthy name_contains
    then (query_clauses ++ [[VStr "name"; VStr "contains"; name_contains]])%list
    else query_clauses in
  let query_clauses :=
    if truthy mimetype
    then (query_clauses ++ [[VStr "mimeType"; VStr "="; mimetype]])%list
    else query_clauses in
  if truthy parents_in
  then (query_clauses ++ [[VStr "parents"; VStr "in"; parents_in]])%list
  else query_clauses.

(** The call [list_files] sets up. *)
Definition list_files_call (name_equals name_contains mimetype parents_in n : pyval)
           (supports_all_drives : bool) : result api_call :=
  bind (_make_querystring_default
          (list_files_clauses name_equals name_contains mimetype parents_in))
       (fun q => Ok (FilesList q n supports_all_drives supports_all_drives)).

Definition list_files (fuel : nat)
           (name_equals name_contains mimetype parents_in n : pyval)
           (supports_all_drives : bool) (w : world)
  : option (result pyret * world) :=
  match list_files_call name_equals name_contains mimetype parents_in n
                        supports_all_drives with
  | Raise e => Some (Raise e, w)
  | Ok c => _execute_file_request fuel (service c) w
  end.

(** [if ids:] on an optional list of ids. *)
Definition truthy_ids (ids : option (list string)) : bool :=
  match ids with
  | Some (_ :: _) => true
  | _ => false
  end.

Definition join_ids (ids : option (list string)) : string :=
  str_join "," (default [] ids).

(** The [kw] dictionary of [update_file]. *)
Definition update_file_kw (file_id : string)
           (remove_parents_ids add_parents_ids : option (list string))
           (name : pyval) (media : option media_upload)
           (supports_all_drives : bool) : gmap string kwval :=
  let kw : gmap string kwval := {[ "fileId" := KStr file_id ]} in
  let kw :=
    if truthy_ids remove_parents_ids
    then <["removeParents" := KStr (join_ids remove_parents_ids)]> kw else kw in
  let kw :=
    if truthy_ids add_parents_ids
    then <["addParents" := KStr (join_ids add_parents_ids)]> kw else kw in
  let kw := if truthy name then <["body" := KBody name]> kw else kw in
  let kw :=
    match media with
    | Some m => <["media_body" := KMedia m]> kw
    | None => kw
    end in
  if supports_all_drives then <["supportsAllDrives" := KBool true]> kw else kw.

Definition update_file (fuel : nat) (file_id : string)
           (remove_parents_ids add_parents_ids : option (list string))
           (name : pyval) (media : option media_upload)
           (supports_all_drives : bool) (w : world)
  : option (result pyret * world) :=
  let kw := update_file_kw file_id remove_parents_ids add_parents_ids name media
                           supports_all_drives in
  if Nat.eqb (size kw) 1                 (* No modification, only fileId *)
  then Some (Ok RNone, w)
  else _execute_file_request fuel (service (FilesUpdate kw)) w.

(** The state of the specification's machine a run has reached. *)
Definition status_of {A : Type} (o : option (result A * world)) : loop_status :=
  match o with
  | None => AWAITING_CHUNK_RESULT
  | Some (Ok _, _) => SUCCESS
  | Some (Raise _, _) => FATAL_FAILURE
  end.

End Client.

(** ** The serializer in the specification's words *)

(** Escaping one character: a backslash is doubled, a single quote gets one
    backslash in front, anything else is kept. *)
Definition escape_char (c : ascii) : string :=
  if Ascii.eqb c "\"%char then "\\"
  else if Ascii.eqb c "'"%char then "\'"
  else String c "".

Fixpoint escape_each (s : string) : string :=
  match s with
  | EmptyString => ""
  | String c s' => escape_char c ++ escape_each s'
  end.

(** Replacing a one-character pattern rewrites the string character by
    character. *)
Fixpoint subst_char (a : ascii) (new s : string) : string :=
  match s with
  | EmptyString => ""
  | String c s' => (if Ascii.eqb a c then new else String c "") ++ subst_char a new s'
  end.

Definition escape_backslashes (s : string) : string := replace "\" "\\" s.
Definition escape_quotes (s : string) : string := replace "'" "\'" s.



(** Transport errors, IO errors and server errors with a status of 500 or
    more: what the specification calls retryable. *)
Definition retryable (e : exn) : bool :=
  match e with
  | HttpError status => (500 <=? status)%Z
  | _ => is_retryable_class e
  end.

(** The locals and the world after one absorbed failure: the counter went
    up to [k], one random number was drawn, and the loop reported and slept
    [random() * 2 ** k]. *)
Definition retried (st : loop_state) : loop_state :=
  {| progressless_iters := progressless_iters st + 1;
     st_response := st_response st;
     st_progress := st_progress st |}.

Definition backoff (random : nat -> Q) (w : world) (k : Z) : Q :=
  (random (rands w) * inject_Z (2 ^ k))%Q.

Definition slept (random : nat -> Q) (e : exn) (st : loop_state) (w : world) : world :=
  let k := (progressless_iters st + 1)%Z in
  emit (EvSleep (backoff random w k))
       (emit (EvCaught e (backoff random w k) k) (tick_rand w)).

(** ** Concrete collaborators for the worked examples *)

Definition demo_response : response := [("id", JStr "f1")].

Definition demo_upload : media_upload :=
  {| m_mimetype := "text/plain"; m_chunksize := 2 * 1024 * 1024; m_resumable := true |}.

(** A resumable upload request. *)
Definition demo_request : request :=
  {| req_call := FilesUpdate {[ "fileId" := KStr "f1" ]};
     resumable := true;
     uri := "https://www.googleapis.com/upload/drive/v3/files/f1" |}.

Definition demo_service (c : api_call) : request :=
  {| req_call := c; resumable := false; uri := "" |}.

Definition demo_execute (_ : request) : result response := Ok demo_response.

Definition demo_random (_ : nat) : Q := 1 # 2.

(** Two server errors 503, then the final response. *)
Definition chunks_503_503_ok (i : nat) : chunk_result :=
  match i with
  | 0 | 1 => ChunkRaise (HttpError 503)
  | _ => ChunkOk None (Some demo_response)
  end.

Definition chunks_always_transport (_ : nat) : chunk_result :=
  ChunkRaise (HttpLib2Error "connection reset").

Definition chunks_404 (_ : nat) : chunk_result :=
  ChunkRaise (HttpError 404).

(** ** Further definitions: reading literals back, effects of a run *)

(** The reader of a quoted literal of the query grammar, after its opening
    quote: a backslash makes the next character literal, a quote that is
    not escaped ends the literal.  Returns the value read and the text
    after the closing quote. *)
Fixpoint read_body (escaped : bool) (s : string) : option (string * string) :=
  match s with
  | EmptyString => None
  | String c s' =>
      if escaped then
        option_map (fun vr => (String c (fst vr), snd vr)) (read_body false s')
      else if Ascii.eqb c "\"%char then read_body true s'
      else if Ascii.eqb c "'"%char then Some ("", s')
      else option_map (fun vr => (String c (fst vr), snd vr)) (read_body false s')
  end.

Definition read_literal (s : string) : option (string * string) :=
  match s with
  | String c s' => if Ascii.eqb c "'"%char then read_body false s' else None
  | EmptyString => None
  end.

(** The rendering of an optional filter of [list_files]: present when the
    argument is true in a condition. *)
Definition opt_part (v : pyval) (part : string) : list string :=
  if truthy v then [part] else [].

(** The requests executed in a log, in order. *)
Fixpoint executes (l : list event) : list request :=
  match l with
  | [] => []
  | EvExecute r :: l' => r :: executes l'
  | _ :: l' => executes l'
  end.

(** [if media:] and the like on an optional object. *)
Definition is_some {A : Type} (o : option A) : bool :=
  match o with Some _ => true | None => false end.

(** ** The public methods built on the request machinery *)

(** Exceptions of the public methods: those of a request, passed on, and
    the ones the methods raise themselves. *)
Inductive client_exn : Type :=
| Propagated (e : exn)
| FileNotFoundException (name : pyval)
| RuntimeError (msg : string)
| KeyError (key : string)
| TypeError (msg : string).

Inductive cresult (A : Type) : Type :=
| COk (a : A)
| CRaise (e : client_exn).
Arguments COk {A} a.
Arguments CRaise {A} e.

(** The outcome of a request seen from a public method. *)
Definition lift {A : Type} (r : result A) : cresult A :=
  match r with
  | Ok a => COk a
  | Raise e => CRaise (Propagated e)
  end.

(** [x is False]. *)
Definition py_is_False (x : pyval) : bool :=
  match x with VBool false => true | _ => false end.

(** Truth value of a decoded JSON value. *)
Definition json_truthy (x : json) : bool :=
  match x with
  | JNull => false
  | JBool b => b
  | JNum z => negb (Z.eqb z 0)
  | JStr s => negb (String.eqb s "")
  | JArr l => match l with [] => false | _ => true end
  | JObj kvs => match kvs with [] => false | _ => true end
  end.

(** The strings of a list of JSON values, when all of them are strings. *)
Fixpoint json_strings (l : list json) : option (list string) :=
  match l with
  | [] => Some []
  | JStr s :: l' => option_map (cons s) (json_strings l')
  | _ :: _ => None
  end.

(** What [update_file] makes of a decoded value passed as a list of ids: a
    value that is false in a condition is skipped like [None]; otherwise
    [",".join] iterates it and wants strings. *)
Definition ids_of_json (x : json) : cresult (option (list string)) :=
  if negb (json_truthy x) then COk None
  else
    match py_iter x with
    | Raise _ => CRaise (TypeError "can only join an iterable")
    | Ok items =>
        match json_strings items with
        | Some ids => COk (Some ids)
        | None => CRaise (TypeError "sequence item: expected str instance")
        end
    end.

Section ClientMethods.

Variable execute : request -> result response.
Variable next_chunk : nat -> chunk_result.
Variable random : nat -> Q.
Variable service : api_call -> request.

(** The outcome of [self._files.get(fileId=file_id, ...).execute()], by
    file id and further keyword arguments. *)
Variable files_get : pyval -> list (string * pyval) -> result response.

(** The request the SDK builds for
    [self._files.list(q="sharedWithMe=true", supportsAllDrives=...)]. *)
Variable shared_request : bool -> request.

(** The class [drive.files.File] is used through these: the attributes
    [name] and [is_directory] (its truth value), and what a [File] does
    when tested in a condition, indexed with 0, or iterated. *)
Variable File_name : File -> pyval.
Variable File_is_directory : File -> bool.
Variable File_truthy : File -> bool.
Variable File_getitem0 : File -> cresult pyret.
Variable File_iter : File -> cresult (list File).

Definition rename_file (fuel : nat) (file_id : string) (name : pyval)
           (supports_all_drives : bool) (w : world)
  : option (result pyret * world) :=
  update_file execute next_chunk random service fuel file_id None None name None
              supports_all_drives w.

Definition move_file_to_folder (fuel : nat) (file_id folder_id : string)
           (supports_all_drives : bool) (w : world)
  : option (cresult pyret * world) :=
  match files_get (VStr file_id)
                  [("fields", VStr "parents");
                   ("supportsAllDrives", VBool supports_all_drives)] with
  | Raise e => Some (CRaise (Propagated e), w)
  | Ok resp =>
      match dict_get "parents" resp with
      | None => Some (CRaise (KeyError "parents"), w)
      | Some parents =>
          match ids_of_json parents with
          | CRaise e => Some (CRaise e, w)
          | COk remove_parents_ids =>
              match update_file execute next_chunk random service fuel file_id
                                remove_parents_ids (Some [folder_id]) VNone None
                                supports_all_drives w with
              | None => None
              | Some (r, w') => Some (lift r, w')
              end
          end
      end
  end.

(** [None] stands for the value [None] the method returns. *)
Definition get_file_metadata (file_id : pyval) (raise_if_not_found : bool)
           (kw : list (string * pyval)) : result (option response) :=
  match files_get file_id kw with
  | Ok resp => Ok (Some resp)
  | Raise (HttpError status) =>
      if negb raise_if_not_found then Ok None else Raise (HttpError status)
  | Raise e => Raise e
  end.

Definition get_file (file_id : pyval) (raise_if_not_found : bool)
           (supports_all_drives : bool) : result pyret :=
  match get_file_metadata file_id raise_if_not_found
                          [("supportsAllDrives", VBool supports_all_drives)] with
  | Raise e => Raise e
  | Ok None => Ok RNone
  | Ok (Some fm) =>
      match fm with
      | [] => Ok RNone
      | _ => Ok (RFile {| f_metadata := JObj fm;
                          f_supports_all_drives := supports_all_drives |})
      end
  end.

(** [not x] on what [list_files] returned. *)
Definition ret_falsy (x : pyret) : bool :=
  match x with
  | RNone => true
  | RFiles fs => match fs with [] => true | _ => false end
  | RFile f => negb (File_truthy f)
  end.

(** [x[0]] on what [list_files] returned, known not to be false. *)
Definition ret_first (x : pyret) : cresult pyret :=
  match x with
  | RNone => CRaise (TypeError "'NoneType' object is not subscriptable")
  | RFiles [] => CRaise (Propagated (OtherError "IndexError"))
  | RFiles (f :: _) => COk (RFile f)
  | RFile f => File_getitem0 f
  end.

Definition file_exists (fuel : nat) (name file_id parent_id : pyval)
           (supports_all_drives : bool) (w : world)
  : option (cresult pyret * world) :=
  if negb (truthy name) && negb (truthy file_id)
  then Some (CRaise (RuntimeError "You must provide a name or file_id"), w)
  else if truthy file_id
  then Some (lift (get_file file_id false supports_all_drives), w)
  else
    match list_files execute next_chunk random service fuel
                     name VNone VNone parent_id (VInt 1) supports_all_drives w with
    | None => None
    | Some (Raise e, w') => Some (CRaise (Propagated e), w')
    | Some (Ok files, w') =>
        if ret_falsy files then Some (COk RNone, w')
        else Some (ret_first files, w')
    end.

Definition get_file_by_name (fuel : nat) (name parent_id : pyval)
           (supports_all_drives : bool) (w : world)
  : option (cresult pyret * world) :=
  let parents_in := if truthy parent_id then parent_id else VNone in
  match list_files execute next_chunk random service fuel
                   name VNone VNone parents_in (VInt 1) supports_all_drives w with
  | None => None
  | Some (Raise e, w') => Some (CRaise (Propagated e), w')
  | Some (Ok ls, w') =>
      if ret_falsy ls then Some (CRaise (FileNotFoundException name), w')
      else Some (ret_first ls, w')
  end.

Definition files_shared_with_me (fuel : nat) (supports_all_drives : bool) (w : world)
  : option (result pyret * world) :=
  _execute_file_request execute next_chunk random fuel
                        (shared_request supports_all_drives) w.

(** [for shared in x] on what [files_shared_with_me] returned. *)
Definition ret_iter (x : pyret) : cresult (list File) :=
  match x with
  | RNone => CRaise (TypeError "'NoneType' object is not iterable")
  | RFiles fs => COk fs
  | RFile f => File_iter f
  end.

(** The body of the loop of [get_shared_file]: the first file that is
    returned and not skipped by a [continue]. *)
Fixpoint shared_loop (files : list File) (name is_directory : pyval) : option File :=
  match files with
  | [] => None
  | shared :: rest =>
      if py_eq (File_name shared) name then
        if py_is_False is_directory && File_is_directory shared
        then shared_loop rest name is_directory
        else if truthy is_directory && negb (File_is_directory shared)
        then shared_loop rest name is_directory
        else Some shared
      else shared_loop rest name is_directory
  end.

Definition get_shared_file (fuel : nat) (name is_directory : pyval)
           (raise_if_not_found supports_all_drives : bool) (w : world)
  : option (cresult pyret * world) :=
  match files_shared_with_me fuel supports_all_drives w with
  | None => None
  | Some (Raise e, w') => Some (CRaise (Propagated e), w')
  | Some (Ok listing, w') =>
      match ret_iter listing with
      | CRaise e => Some (CRaise e, w')
      | COk files =>
          match shared_loop files name is_directory with
          | Some shared => Some (COk (RFile shared), w')
          | None =>
              if raise_if_not_found
              then Some (CRaise (FileNotFoundException name), w')
              else Some (COk RNone, w')
          end
      end
  end.

Definition get_shared_directory (fuel : nat) (name : pyval)
           (supports_all_drives : bool) (w : world)
  : option (cresult pyret * world) :=
  get_shared_file fuel name (VBool true) true supports_all_drives w.

End ClientMethods.

(** A file of the listing matches a search by name and kind. *)
Definition shared_match (File_name : File -> pyval) (File_is_directory : File -> bool)
           (name is_directory : pyval) (f : File) : bool :=
  py_eq (File_name f) name
  && match is_directory with
     | VBool false => negb (File_is_directory f)
     | _ => if truthy is_directory then File_is_directory f else true
     end.

(** ** Further collaborators for the worked examples *)

Definition chunks_progress_then_fail (i : nat) : chunk_result :=
  match i with
  | 0 => ChunkOk (Some (1 # 4)) None
  | _ => ChunkRaise (HttpError 503)
  end.

Definition demo_folder_mimetype : string := "application/vnd.google-apps.folder".

Definition demo_listing : response :=
  [("files",
    JArr [JObj [("name", JStr "notes"); ("mimeType", JStr "text/plain")];
          JObj [("name", JStr "reports"); ("mimeType", JStr "text/plain")];
          JObj [("name", JStr "reports"); ("mimeType", JStr demo_folder_mimetype)]])].

Definition demo_execute_listing (_ : request) : result response := Ok demo_listing.

Definition demo_shared_request (supports_all_drives : bool) : request :=
  {| req_call := FilesList "sharedWithMe=true" VNone supports_all_drives false;
     resumable := false;
     uri := "" |}.

Definition demo_field (key : string) (f : File) : option json :=
  match f_metadata f with
  | JObj kvs => dict_get key kvs
  | _ => None
  end.

Definition demo_File_name (f : File) : pyval :=
  match demo_field "name" f with
  | Some (JStr s) => VStr s
  | _ => VNone
  end.

Definition demo_File_is_directory (f : File) : bool :=
  match demo_field "mimeType" f with
  | Some (JStr s) => String.eqb s demo_folder_mimetype
  | _ => false
  end.

Definition demo_File_truthy (_ : File) : bool := true.

Definition demo_File_getitem0 (_ : File) : cresult pyret :=
  CRaise (TypeError "'File' object is not subscriptable").

Definition demo_File_iter (_ : File) : cresult (list File) :=
  CRaise (TypeError "'File' object is not iterable").

Definition demo_files_get (file_id : pyval) (_ : list (string * pyval))
  : result response :=
  match file_id with
  | VStr "f1" => Ok [("id", JStr "f1"); ("parents", JArr [JStr "p1"; JStr "p2"])]
  | VStr "locked" => Raise (HttpError 403)
  | _ => Raise (HttpError 404)
  end.

(** The files [_execute_file_request] makes of [demo_listing]. *)
Definition demo_files : list File :=
  map (fun m => {| f_metadata := m; f_supports_all_drives := false |})
      [JObj [("name", JStr "notes"); ("mimeType", JStr "text/plain")];
       JObj [("name", JStr "reports"); ("mimeType", JStr "text/plain")];
       JObj [("name", JStr "reports"); ("mimeType", JStr demo_folder_mimetype)]].

(** ** Sanity checks on concrete inputs *)

Example ex_query_two :
  _make_querystring_default
    [clause3 "trashed" "=" (VBool false); clause3 "name" "=" (VStr "report.pdf")]
  = Ok "trashed = false and name = 'report.pdf'".
Proof. reflexivity. Qed.

Example ex_obrien : _serialize_query_value (VStr "O'Brien") = "'O\'Brien'".
Proof. reflexivity. Qed.

Example ex_backslash : _serialize_query_value (VStr "a\'b") = "'a\\\'b'".
Proof. reflexivity. Qed.

Example ex_in :
  _make_query_clause (VStr "parents") (VStr "in") (VStr "abc") false = "'abc' in parents".
Proof. reflexivity. Qed.

(** ** String lemmas *)

#[local] Arguments String.append : simpl nomatch.

Lemma append_nil_r (s : string) : s ++ "" = s.
Proof. induction s as [|c s IH]; simpl; [reflexivity | now rewrite IH]. Qed.

Lemma append_assoc (a b c : string) : (a ++ b) ++ c = a ++ (b ++ c).
Proof. induction a as [|x a IH]; simpl; [reflexivity | now rewrite IH]. Qed.

Lemma prefix_nil (s : string) : String.prefix "" s = true.
Proof. now destruct s. Qed.

Lemma prefix_append (a b : string) : String.prefix a (a ++ b) = true.
Proof.
  induction a as [|c a IH]; simpl; [apply prefix_nil |].
  destruct (ascii_dec c c) as [_|Hne]; [exact IH | now elim Hne].
Qed.

Lemma prefix_single (a c : ascii) (s : string) :
  String.prefix (String a "") (String c s) = Ascii.eqb a c.
Proof.
  simpl. destruct (ascii_dec a c) as [->|Hne].
  - rewrite Ascii.eqb_refl. apply prefix_nil.
  - symmetry. now apply Ascii.eqb_neq.
Qed.

Lemma replace_single (a : ascii) (new s : string) :
  replace (String a "") new s = subst_char a new s.
Proof.
  unfold replace.
  induction s as [|c s IH]; [reflexivity |].
  cbn [replace_scan subst_char]. rewrite prefix_single.
  destruct (Ascii.eqb a c); cbn [String.length Nat.sub]; now rewrite IH.
Qed.

Lemma subst_char_append (a : ascii) (new s t : string) :
  subst_char a new (s ++ t) = subst_char a new s ++ subst_char a new t.
Proof.
  induction s as [|c s IH]; simpl; [reflexivity |].
  now rewrite IH, append_assoc.
Qed.

Lemma escape_order (s : string) :
  escape_quotes (escape_backslashes s) = escape_each s.
Proof.
  unfold escape_quotes, escape_backslashes. rewrite !replace_single.
  induction s as [|c s IH]; [reflexivity |].
  cbn [subst_char escape_each]. rewrite subst_char_append, IH. f_equal.
  unfold escape_char. rewrite (Ascii.eqb_sym c "\"%char), (Ascii.eqb_sym c "'"%char).
  destruct (Ascii.eqb "\" c) eqn:Hb.
  - reflexivity.
  - cbn [subst_char]. destruct (Ascii.eqb "'" c); reflexivity.
Qed.

(** ** Query builder *)




(** C5: a boolean is serialized as the bare token [true] or [false]; any
    other value is stringified and wrapped in single quotes after its
    backslashes were escaped and then its single quotes, which doubles each
    backslash of the value and puts exactly one backslash before each of its
    quotes; so O'Brien gives 'O\'Brien'. *)
Theorem serialize_query_value_spec (value : pyval) :
  _serialize_query_value value
  = match value with
    | VBool true => "true"
    | VBool false => "false"
    | _ => "'" ++ escape_quotes (escape_backslashes (py_str value)) ++ "'"
    end
  /\ escape_quotes (escape_backslashes (py_str value)) = escape_each (py_str value)
  /\ _serialize_query_value (VStr "O'Brien") = "'O\'Brien'"
  /\ _serialize_query_value (VStr "C:\dir") = "'C:\\dir'"
  /\ _serialize_query_value (VStr "\'") = "'\\\''".
Proof.
  split; [destruct value as [| [|] | z | s]; reflexivity |].
  split; [apply escape_order |].
  repeat split.
Qed.

(** C6: with the operator [in] a clause is rendered value first, as
    [<serialized value> in <field>]; with any other operator it is rendered
    as [<field> <operator> <serialized value>]. *)
Theorem make_query_clause_in_asymmetry (field op : string) (value : pyval) :
  _make_query_clause (VStr field) (VStr op) value false
  = if String.eqb op "in"
    then _serialize_query_value value ++ " in " ++ field
    else field ++ " " ++ op ++ " " ++ _serialize_query_value value.
Proof.
  unfold _make_query_clause, fmt3. cbn [py_eq py_str].
  destruct (String.eqb op "in") eqn:Hop; [| reflexivity].
  apply String.eqb_eq in Hop. now subst op.
Qed.

Lemma collect_parts_triples (clauses : list pytuple) :
  forall (acc parts : list string),
    collect_parts clauses acc = Ok parts ->
    exists triples : list (pyval * pyval * pyval),
      clauses = map (fun t => [t.1.1; t.1.2; t.2]) triples
      /\ parts = (acc ++ map (fun t => _make_query_clause t.1.1 t.1.2 t.2 false) triples)%list.
Proof.
  induction clauses as [|t rest IH]; intros acc parts Hrun.
  - exists []. simpl in *. rewrite app_nil_r. injection Hrun as <-. now split.
  - destruct t as [|a [|b [|c [|d t]]]]; try discriminate Hrun.
    cbn [collect_parts unpack3 bind] in Hrun.
    destruct (IH _ _ Hrun) as (triples & -> & ->).
    exists ((a, b, c) :: triples). simpl. now rewrite <- app_assoc.
Qed.

(** C7, as the code has it: [_make_query_clause] called with its negation
    flag set returns the rendering without the flag prefixed with [not ], so
    the negated clause (status, =, "done") is [not status = 'done']; the
    clause list of [_make_querystring] holds (field, op, value) triples
    only, every clause of a query it returns is rendered without negation,
    and a clause with a fourth element makes it raise [ValueError]. *)
Theorem negation_only_in_make_query_clause :
  (forall field op value : pyval,
      _make_query_clause field op value true
      = "not " ++ _make_query_clause field op value false)
  /\ _make_query_clause (VStr "status") (VStr "=") (VStr "done") true
     = "not status = 'done'"
  /\ (forall (clauses : list pytuple) (join q : string),
         _make_querystring clauses join = Ok q ->
         exists triples : list (pyval * pyval * pyval),
           clauses = map (fun t => [t.1.1; t.1.2; t.2]) triples
           /\ q = str_join (" " ++ join ++ " ")
                    (map (fun t => _make_query_clause t.1.1 t.1.2 t.2 false) triples))
  /\ (forall (field op value flag : pyval) (rest : list pytuple) (join : string),
         _make_querystring ([field; op; value; flag] :: rest) join
         = Raise (ValueError "too many values to unpack (expected 3)")).
Proof.
  split; [reflexivity |]. split; [reflexivity |]. split; [| reflexivity].
  intros clauses join q Hq. unfold _make_querystring in Hq.
  destruct (collect_parts clauses []) as [parts|e] eqn:Hparts; [| discriminate Hq].
  destruct (collect_parts_triples _ _ _ Hparts) as (triples & Hcl & Hps).
  exists triples. split; [exact Hcl |].
  cbn [bind app] in Hq, Hps. congruence.
Qed.

Lemma negation_only_in_make_query_clause_witness :
  _make_querystring [[VStr "status"; VStr "="; VStr "done"]] "and"
  = Ok "status = 'done'"
  /\ exists triples : list (pyval * pyval * pyval),
      [[VStr "status"; VStr "="; VStr "done"]]
      = map (fun t => [t.1.1; t.1.2; t.2]) triples
      /\ "status = 'done'"
         = str_join " and "
             (map (fun t => _make_query_clause t.1.1 t.1.2 t.2 false) triples).
Proof.
  split; [reflexivity |].
  exact (proj1 (proj2 (proj2 negation_only_in_make_query_clause))
           [[VStr "status"; VStr "="; VStr "done"]] "and" "status = 'done'" eq_refl).
Defined.

(** C7 as stated fails: a clause carrying a negation flag, handed to the
    query builder in its clause list, is not rendered as a negated clause;
    the builder raises instead. *)
Lemma negated_clause_in_clause_list_raises :
  _make_querystring_default [[VStr "status"; VStr "="; VStr "done"; VBool true]]
  = Raise (ValueError "too many values to unpack (expected 3)")
  /\ _make_querystring_default [[VStr "status"; VStr "="; VStr "done"; VBool true]]
     <> Ok "not status = 'done'".
Proof. split; [reflexivity | discriminate]. Qed.

(** ** Resumable transfer loop *)

Section TransferLoop.

Variable execute : request -> result response.
Variable next_chunk : nat -> chunk_result.
Variable random : nat -> Q.

Lemma retryable_class (e : exn) : is_retryable_class e = true -> retryable e = true.
Proof. destruct e; simpl; congruence. Qed.

Lemma on_error_unfold (e : exn) (st : loop_state) (w : world) :
  on_error random e st w
  = if (progressless_iters st + 1 >? NUM_RETRIES)%Z
    then (Raise e, emit EvGiveUp w)
    else (Ok (retried st), slept random e st w).
Proof.
  unfold on_error, handle_progressless_iter.
  destruct (progressless_iters st + 1 >? NUM_RETRIES)%Z; reflexivity.
Qed.

Lemma loop_body_raise (st : loop_state) (w : world) (e : exn) :
  next_chunk (calls w) = ChunkRaise e ->
  loop_body next_chunk random st w
  = if retryable e then on_error random e st (tick_call w)
    else (Raise e, tick_call w).
Proof.
  intros Hcall. unfold loop_body. rewrite Hcall.
  destruct e as [status| | | |]; try reflexivity.
  unfold retryable.
  destruct (Z.ltb_spec status 500), (Z.leb_spec 500 status); (reflexivity || lia).
Qed.

Lemma transfer_loop_done (fuel : nat) (st : loop_state) (w : world) (r : response) :
  st_response st = Some r ->
  transfer_loop next_chunk random fuel st w = Some (Ok st, w).
Proof. intros Hr. destruct fuel; simpl; now rewrite Hr. Qed.

Lemma transfer_loop_ok (fuel : nat) (st : loop_state) (w : world)
      (p : option Q) (r : option response) :
  st_response st = None ->
  next_chunk (calls w) = ChunkOk p r ->
  transfer_loop next_chunk random (S fuel) st w
  = transfer_loop next_chunk random fuel
      {| progressless_iters := 0; st_response := r; st_progress := p |}
      (report_progress p (tick_call w)).
Proof.
  intros Hnone Hcall. cbn [transfer_loop]. rewrite Hnone.
  unfold loop_body. now rewrite Hcall.
Qed.


Lemma transfer_loop_retry (fuel : nat) (st : loop_state) (w : world) (e : exn) :
  st_response st = None ->
  next_chunk (calls w) = ChunkRaise e ->
  retryable e = true ->
  (progressless_iters st + 1 <= NUM_RETRIES)%Z ->
  transfer_loop next_chunk random (S fuel) st w
  = transfer_loop next_chunk random fuel (retried st)
      (slept random e st (tick_call w)).
Proof.
  intros Hnone Hcall He Hk. cbn [transfer_loop]. rewrite Hnone.
  rewrite (loop_body_raise _ _ _ Hcall), He, on_error_unfold.
  destruct (Z.gtb_spec (progressless_iters st + 1) NUM_RETRIES); [lia | reflexivity].
Qed.

Lemma transfer_loop_give_up (fuel : nat) (st : loop_state) (w : world) (e : exn) :
  st_response st = None ->
  next_chunk (calls w) = ChunkRaise e ->
  retryable e = true ->
  (NUM_RETRIES < progressless_iters st + 1)%Z ->
  transfer_loop next_chunk random (S fuel) st w
  = Some (Raise e, emit EvGiveUp (tick_call w)).
Proof.
  intros Hnone Hcall He Hk. cbn [transfer_loop]. rewrite Hnone.
  rewrite (loop_body_raise _ _ _ Hcall), He, on_error_unfold.
  destruct (Z.gtb_spec (progressless_iters st + 1) NUM_RETRIES); [reflexivity | lia].
Qed.

Lemma backoff_bound (r : Q) (k : Z) :
  (0 <= r < 1)%Q -> (0 <= k)%Z ->
  (0 <= r * inject_Z (2 ^ k) < inject_Z (2 ^ k))%Q.
Proof.
  intros [Hlo Hhi] Hk.
  assert (Hpos : (0 < inject_Z (2 ^ k))%Q).
  { change 0%Q with (inject_Z 0). rewrite <- Zlt_Qlt. now apply Z.pow_pos_nonneg. }
  split.
  - apply Qmult_le_0_compat; [exact Hlo | now apply Qlt_le_weak].
  - rewrite <- (Qmult_1_l (inject_Z (2 ^ k))) at 2.
    now apply Qmult_lt_compat_r.
Qed.

Variable req : request.
Hypothesis req_resumable : resumable req = true.

(** C1, evaluated on the code: when the first two chunk calls raise a
    server error with status 503 and the third returns a final response,
    the loop sleeps twice, leaves with that response in its local
    variable and the retry counter back at 0, which is the SUCCESS state;
    [_execute_file_request] then returns [None], not the response. *)
Theorem resumable_success_returns_none
        (p : option Q) (resp : response) (fuel : nat) :
  next_chunk 0 = ChunkRaise (HttpError 503) ->
  next_chunk 1 = ChunkRaise (HttpError 503) ->
  next_chunk 2 = ChunkOk p (Some resp) ->
  3 <= fuel ->
  exists w : world,
    transfer_loop next_chunk random fuel loop_state0 world0
    = Some (Ok {| progressless_iters := 0;
                  st_response := Some resp;
                  st_progress := p |}, w)
    /\ calls w = 3
    /\ sleeps (log w)
       = [(random 0 * inject_Z (2 ^ 1))%Q; (random 1 * inject_Z (2 ^ 2))%Q]
    /\ _execute_file_request execute next_chunk random fuel req world0
       = Some (Ok RNone, report_progress p w)
    /\ status_of (_execute_file_request execute next_chunk random fuel req world0)
       = SUCCESS.
Proof.
  intros H0 H1 H2 Hfuel.
  destruct fuel as [|[|[|fuel]]]; try lia.
  unfold _execute_file_request. rewrite req_resumable. cbn [negb].
  erewrite transfer_loop_retry;
    [| reflexivity | exact H0 | reflexivity | unfold NUM_RETRIES; cbn; lia].
  erewrite transfer_loop_retry;
    [| reflexivity | exact H1 | reflexivity | unfold NUM_RETRIES; cbn; lia].
  erewrite transfer_loop_ok; [| reflexivity | exact H2].
  erewrite transfer_loop_done; [| reflexivity].
  eexists. split; [reflexivity |].
  split; [destruct p; reflexivity |].
  split; [destruct p; reflexivity |].
  split; reflexivity.
Qed.

(** C2: when every chunk call raises a transport or IO error, the loop
    calls the chunk function six times, that is, it retries exactly five
    times; before the k-th retry it sleeps [random() * 2 ** k], below
    the bounds 2, 4, 8, 16, 32; then it raises, unchanged, the error the
    chunk function raised last, with no sixth sleep.  Six iterations of
    fuel are enough: the loop terminates. *)
Theorem retry_budget_exhausted (fuel : nat) :
  (forall i : nat, exists e : exn,
      next_chunk i = ChunkRaise e /\ is_retryable_class e = true) ->
  (forall i : nat, (0 <= random i < 1)%Q) ->
  6 <= fuel ->
  exists (e : exn) (w : world),
    next_chunk 5 = ChunkRaise e
    /\ _execute_file_request execute next_chunk random fuel req world0
       = Some (Raise e, w)
    /\ status_of (_execute_file_request execute next_chunk random fuel req world0)
       = FATAL_FAILURE
    /\ calls w = 6
    /\ rands w = 5
    /\ sleeps (log w)
       = [(random 0 * inject_Z (2 ^ 1))%Q; (random 1 * inject_Z (2 ^ 2))%Q;
          (random 2 * inject_Z (2 ^ 3))%Q; (random 3 * inject_Z (2 ^ 4))%Q;
          (random 4 * inject_Z (2 ^ 5))%Q]
    /\ Forall2 (fun (t : Q) (k : Z) => (0 <= t < inject_Z (2 ^ k))%Q)
               (sleeps (log w)) [1; 2; 3; 4; 5]%Z.
Proof.
  intros Hraise Hrandom Hfuel.
  destruct (Hraise 0) as (e0 & H0 & R0). destruct (Hraise 1) as (e1 & H1 & R1).
  destruct (Hraise 2) as (e2 & H2 & R2). destruct (Hraise 3) as (e3 & H3 & R3).
  destruct (Hraise 4) as (e4 & H4 & R4). destruct (Hraise 5) as (e5 & H5 & R5).
  apply retryable_class in R0, R1, R2, R3, R4, R5.
  destruct fuel as [|[|[|[|[|[|fuel]]]]]]; try lia.
  exists e5. unfold _execute_file_request. rewrite req_resumable. cbn [negb].
  erewrite transfer_loop_retry; [| reflexivity | exact H0 | exact R0 | unfold NUM_RETRIES; cbn; lia].
  erewrite transfer_loop_retry; [| reflexivity | exact H1 | exact R1 | unfold NUM_RETRIES; cbn; lia].
  erewrite transfer_loop_retry; [| reflexivity | exact H2 | exact R2 | unfold NUM_RETRIES; cbn; lia].
  erewrite transfer_loop_retry; [| reflexivity | exact H3 | exact R3 | unfold NUM_RETRIES; cbn; lia].
  erewrite transfer_loop_retry; [| reflexivity | exact H4 | exact R4 | unfold NUM_RETRIES; cbn; lia].
  erewrite transfer_loop_give_up; [| reflexivity | exact H5 | exact R5 | unfold NUM_RETRIES; cbn; lia].
  eexists. split; [exact H5 |]. split; [reflexivity |].
  split; [reflexivity |]. split; [reflexivity |]. split; [reflexivity |].
  split; [reflexivity |].
  cbn [sleeps log slept emit tick_rand tick_call retried world0 app
       progressless_iters loop_state0 backoff rands].
  repeat (constructor; [apply backoff_bound; [apply Hrandom | lia] |]).
  constructor.
Qed.


End TransferLoop.

Lemma demo_random_unit (i : nat) : (0 <= demo_random i < 1)%Q.
Proof. unfold demo_random, Qle, Qlt; simpl; lia. Qed.

Lemma resumable_success_returns_none_witness :
  exists w : world,
    transfer_loop chunks_503_503_ok demo_random 3 loop_state0 world0
    = Some (Ok {| progressless_iters := 0;
                  st_response := Some demo_response;
                  st_progress := None |}, w)
    /\ calls w = 3
    /\ sleeps (log w) = [(demo_random 0 * inject_Z (2 ^ 1))%Q;
                         (demo_random 1 * inject_Z (2 ^ 2))%Q]
    /\ _execute_file_request demo_execute chunks_503_503_ok demo_random 3
         demo_request world0
       = Some (Ok RNone, report_progress None w)
    /\ status_of (_execute_file_request demo_execute chunks_503_503_ok demo_random 3
                    demo_request world0)
       = SUCCESS.
Proof.
  apply (resumable_success_returns_none demo_execute chunks_503_503_ok demo_random
           demo_request eq_refl None demo_response 3);
    [reflexivity | reflexivity | reflexivity | lia].
Defined.

Lemma retry_budget_exhausted_witness :
  exists (e : exn) (w : world),
    chunks_always_transport 5 = ChunkRaise e
    /\ _execute_file_request demo_execute chunks_always_transport demo_random 6
         demo_request world0
       = Some (Raise e, w)
    /\ status_of (_execute_file_request demo_execute chunks_always_transport
                    demo_random 6 demo_request world0)
       = FATAL_FAILURE
    /\ calls w = 6
    /\ rands w = 5
    /\ sleeps (log w)
       = [(demo_random 0 * inject_Z (2 ^ 1))%Q; (demo_random 1 * inject_Z (2 ^ 2))%Q;
          (demo_random 2 * inject_Z (2 ^ 3))%Q; (demo_random 3 * inject_Z (2 ^ 4))%Q;
          (demo_random 4 * inject_Z (2 ^ 5))%Q]
    /\ Forall2 (fun (t : Q) (k : Z) => (0 <= t < inject_Z (2 ^ k))%Q)
               (sleeps (log w)) [1; 2; 3; 4; 5]%Z.
Proof.
  apply (retry_budget_exhausted demo_execute chunks_always_transport demo_random
           demo_request eq_refl 6).
  - intros i. exists (HttpLib2Error "connection reset"). split; reflexivity.
  - exact demo_random_unit.
  - lia.
Defined.


(** ** Request set-up *)

(** C9: whatever filters are given, the clause list of [list_files] starts
    with the clause (trashed, =, False), the query string is built without
    error and begins with [trashed = false], and that string is the [q] of
    the list request handed to [_execute_file_request]. *)
Theorem list_files_query_starts_with_trashed
        (name_equals name_contains mimetype parents_in n : pyval)
        (supports_all_drives : bool) :
  exists (rest : list pytuple) (q : string),
    list_files_clauses name_equals name_contains mimetype parents_in
    = [VStr "trashed"; VStr "="; VBool false] :: rest
    /\ list_files_call name_equals name_contains mimetype parents_in n
         supports_all_drives
       = Ok (FilesList q n supports_all_drives supports_all_drives)
    /\ String.prefix "trashed = false" q = true
    /\ forall execute next_chunk random service fuel w,
        list_files execute next_chunk random service fuel
          name_equals name_contains mimetype parents_in n supports_all_drives w
        = _execute_file_request execute next_chunk random fuel
            (service (FilesList q n supports_all_drives supports_all_drives)) w.
Proof.
  unfold list_files, list_files_call, list_files_clauses.
  destruct (truthy name_equals), (truthy name_contains),
    (truthy mimetype), (truthy parents_in);
    (eexists; eexists; split; [reflexivity |]; split; [reflexivity |];
     split; [reflexivity | intros; reflexivity]).
Qed.

(** C10: with no parents to remove or add, no name, no media and
    [supports_all_drives] false, [update_file] returns [None] and leaves
    the world as it was: nothing is executed, no chunk is requested, nothing
    is logged.  The call with the file id alone is the first instance. *)
Theorem update_file_without_changes_is_noop
        (execute : request -> result response) (next_chunk : nat -> chunk_result)
        (random : nat -> Q) (service : api_call -> request)
        (fuel : nat) (file_id : string)
        (remove_parents_ids add_parents_ids : option (list string))
        (name : pyval) (w : world) :
  truthy_ids remove_parents_ids = false ->
  truthy_ids add_parents_ids = false ->
  truthy name = false ->
  update_file execute next_chunk random service fuel file_id
    remove_parents_ids add_parents_ids name None false w
  = Some (Ok RNone, w)
  /\ update_file execute next_chunk random service fuel file_id
       None None VNone None false w
     = Some (Ok RNone, w).
Proof.
  intros Hrm Hadd Hname. unfold update_file, update_file_kw.
  rewrite Hrm, Hadd, Hname. cbn [truthy_ids truthy].
  rewrite map_size_singleton. split; reflexivity.
Qed.

Lemma update_file_without_changes_is_noop_witness :
  truthy_ids (Some []) = false
  /\ truthy (VStr "") = false
  /\ update_file demo_execute chunks_404 demo_random demo_service 0 "f1"
       (Some []) None (VStr "") None false world0
     = Some (Ok RNone, world0).
Proof.
  split; [reflexivity |]. split; [reflexivity |].
  apply (update_file_without_changes_is_noop demo_execute chunks_404 demo_random
           demo_service 0 "f1" (Some []) None (VStr "") world0);
    reflexivity.
Defined.

(** A call that does change something is executed. *)
Example update_file_rename_executes :
  update_file demo_execute chunks_404 demo_random demo_service 0 "f1"
    None None (VStr "new name") None false world0
  = Some (Ok (RFile {| f_metadata := JObj demo_response;
                       f_supports_all_drives := false |}),
          emit (EvExecute (demo_service
                  (FilesUpdate (<["body" := KBody (VStr "new name")]>
                                  {[ "fileId" := KStr "f1" ]})))) world0).
Proof. reflexivity. Qed.

(** ** Query builder: further properties *)

Lemma collect_parts_outcome (clauses : list pytuple) :
  forall acc : list string,
    match collect_parts clauses acc with
    | Ok parts =>
        Forall (fun t : pytuple => length t = 3) clauses
        /\ length parts = length acc + length clauses
    | Raise e =>
        (exists msg : string, e = ValueError msg)
        /\ Exists (fun t : pytuple => length t <> 3) clauses
    end.
Proof.
  induction clauses as [|t rest IH]; intros acc.
  - simpl. split; [constructor | lia].
  - destruct t as [|a [|b [|c [|d t]]]];
      try (simpl; split; [eexists; reflexivity | left; simpl; lia]).
    cbn [collect_parts unpack3 bind].
    specialize (IH (acc ++ [_make_query_clause a b c false])%list).
    destruct (collect_parts rest _) as [parts|e].
    + destruct IH as [Hall Hlen]. split; [now constructor |].
      rewrite length_app in Hlen. simpl in *. lia.
    + destruct IH as [Hmsg Hex]. split; [exact Hmsg | now right].
Qed.

(** X1: [_make_querystring] returns a string exactly when every clause has
    three elements; otherwise some clause has another length and the call
    raises [ValueError], whatever the other clauses are. *)
Theorem make_querystring_ok_iff_triples (clauses : list pytuple) (join : string) :
  match _make_querystring clauses join with
  | Ok _ => Forall (fun t : pytuple => length t = 3) clauses
  | Raise e =>
      (exists msg : string, e = ValueError msg)
      /\ Exists (fun t : pytuple => length t <> 3) clauses
  end.
Proof.
  unfold _make_querystring.
  pose proof (collect_parts_outcome clauses []) as H.
  destruct (collect_parts clauses []) as [parts|e]; cbn [bind].
  - exact (proj1 H).
  - exact H.
Qed.

Lemma collect_parts_acc (clauses : list pytuple) :
  forall acc : list string,
    collect_parts clauses acc
    = bind (collect_parts clauses []) (fun parts => Ok (acc ++ parts)%list).
Proof.
  induction clauses as [|t rest IH]; intros acc.
  - simpl. now rewrite app_nil_r.
  - cbn [collect_parts]. destruct (unpack3 t) as [[[a b] c]|e]; [| reflexivity].
    cbn [bind app]. rewrite IH.
    rewrite (IH [_make_query_clause a b c false]).
    destruct (collect_parts rest []) as [parts|e]; [| reflexivity].
    cbn [bind]. now rewrite <- app_assoc.
Qed.

Lemma collect_parts_app (l1 l2 : list pytuple) :
  forall acc : list string,
    collect_parts (l1 ++ l2) acc
    = bind (collect_parts l1 acc) (collect_parts l2).
Proof.
  induction l1 as [|t rest IH]; intros acc; [reflexivity |].
  cbn [app collect_parts]. destruct (unpack3 t) as [[[a b] c]|e]; [| reflexivity].
  cbn [bind]. apply IH.
Qed.

Lemma str_join_app (sep : string) (p1 p2 : list string) :
  p1 <> [] -> p2 <> [] ->
  str_join sep (p1 ++ p2) = str_join sep p1 ++ sep ++ str_join sep p2.
Proof.
  intros H1 H2. induction p1 as [|a [|b p1] IH]; [congruence | |].
  - destruct p2; [congruence | reflexivity].
  - change (str_join sep ((a :: b :: p1) ++ p2))
      with (a ++ sep ++ str_join sep ((b :: p1) ++ p2)).
    rewrite IH by discriminate.
    change (str_join sep (a :: b :: p1)) with (a ++ sep ++ str_join sep (b :: p1)).
    now rewrite !append_assoc.
Qed.

(** X2: queries compose by concatenation of their clause lists: when two
    non-empty clause lists give the queries [q1] and [q2], their
    concatenation gives [q1], the joiner between two spaces, then [q2];
    the clauses keep their order. *)
Theorem make_querystring_app (l1 l2 : list pytuple) (join q1 q2 : string) :
  l1 <> [] -> l2 <> [] ->
  _make_querystring l1 join = Ok q1 ->
  _make_querystring l2 join = Ok q2 ->
  _make_querystring (l1 ++ l2) join = Ok (q1 ++ " " ++ join ++ " " ++ q2).
Proof.
  unfold _make_querystring. intros Hne1 Hne2 Hq1 Hq2.
  rewrite collect_parts_app.
  pose proof (collect_parts_outcome l1 []) as Hlen1.
  pose proof (collect_parts_outcome l2 []) as Hlen2.
  destruct (collect_parts l1 []) as [p1|e1]; [| discriminate Hq1].
  destruct (collect_parts l2 []) as [p2|e2] eqn:Hp2; [| discriminate Hq2].
  cbn [bind] in *. rewrite collect_parts_acc, Hp2. cbn [bind].
  injection Hq1 as <-. injection Hq2 as <-.
  rewrite str_join_app.
  - now rewrite !append_assoc.
  - destruct Hlen1 as [_ Hlen1]. destruct p1, l1; simpl in Hlen1; congruence || lia.
  - destruct Hlen2 as [_ Hlen2]. destruct p2, l2; simpl in Hlen2; congruence || lia.
Qed.

Lemma make_querystring_app_witness :
  _make_querystring
    ([clause3 "trashed" "=" (VBool false)] ++ [clause3 "name" "contains" (VStr "draft")])
    "and"
  = Ok ("trashed = false" ++ " " ++ "and" ++ " " ++ "name contains 'draft'").
Proof.
  apply (make_querystring_app [clause3 "trashed" "=" (VBool false)]
           [clause3 "name" "contains" (VStr "draft")] "and");
    [discriminate | discriminate | reflexivity | reflexivity].
Defined.

Lemma read_body_escaped (s rest : string) :
  read_body false (escape_each s ++ String "'" rest) = Some (s, rest).
Proof.
  induction s as [|c s IH]; [reflexivity |].
  cbn [escape_each]. rewrite append_assoc. unfold escape_char.
  destruct (Ascii.eqb c "\"%char) eqn:Hb.
  - apply Ascii.eqb_eq in Hb. subst c.
    cbn [append read_body Ascii.eqb Bool.eqb]. now rewrite IH.
  - destruct (Ascii.eqb c "'"%char) eqn:Hq.
    + apply Ascii.eqb_eq in Hq. subst c.
      cbn [append read_body Ascii.eqb Bool.eqb]. now rewrite IH.
    + cbn [append read_body]. now rewrite Hb, Hq, IH.
Qed.

(** X3: the value of a serialized string can be read back: reading the
    literal that [_serialize_query_value] produces for a value that is not
    a boolean, followed by any text, gives [str(value)] and stops exactly
    at that text, so no character of the value ends the literal early; two
    different strings are therefore never serialized alike. *)
Theorem serialize_query_value_read_back (value : pyval) (rest : string) :
  is_bool value = false ->
  read_literal (_serialize_query_value value ++ rest) = Some (py_str value, rest)
  /\ (forall s t : string,
         _serialize_query_value (VStr s) = _serialize_query_value (VStr t) -> s = t).
Proof.
  assert (Hread : forall (v : pyval) (r : string), is_bool v = false ->
            read_literal (_serialize_query_value v ++ r) = Some (py_str v, r)).
  { intros v r Hv. unfold _serialize_query_value. rewrite Hv.
    fold (escape_backslashes (py_str v)).
    fold (escape_quotes (escape_backslashes (py_str v))).
    rewrite escape_order, !append_assoc.
    cbn [append read_literal Ascii.eqb Bool.eqb].
    apply read_body_escaped. }
  intros Hv. split; [now apply Hread |].
  intros s t Heq.
  pose proof (Hread (VStr s) "" eq_refl) as Hs.
  pose proof (Hread (VStr t) "" eq_refl) as Ht.
  rewrite Heq, Ht in Hs. simpl in Hs. congruence.
Qed.

Lemma serialize_query_value_read_back_witness :
  is_bool (VStr "it's a \path") = false
  /\ read_literal (_serialize_query_value (VStr "it's a \path") ++ " and trashed = false")
     = Some ("it's a \path", " and trashed = false").
Proof.
  split; [reflexivity |].
  exact (proj1 (serialize_query_value_read_back (VStr "it's a \path")
                  " and trashed = false" eq_refl)).
Defined.

(** X4: the query of [list_files] is [trashed = false] followed, in this
    order and joined by [ and ], by [name = v], [name contains v],
    [mimeType = v] and [v in parents] for those of the four filters that
    are true in a condition; a filter that is [None] or the empty string
    is left out, and [includeItemsFromAllDrives] always equals
    [supportsAllDrives]. *)
Theorem list_files_query_shape
        (name_equals name_contains mimetype parents_in n : pyval)
        (supports_all_drives : bool) :
  list_files_call name_equals name_contains mimetype parents_in n supports_all_drives
  = Ok (FilesList
          (str_join " and "
             ("trashed = false"
              :: opt_part name_equals ("name = " ++ _serialize_query_value name_equals)
              ++ opt_part name_contains
                   ("name contains " ++ _serialize_query_value name_contains)
              ++ opt_part mimetype ("mimeType = " ++ _serialize_query_value mimetype)
              ++ opt_part parents_in
                   (_serialize_query_value parents_in ++ " in parents"))%list)
          n supports_all_drives supports_all_drives).
Proof.
  unfold list_files_call, list_files_clauses, opt_part.
  destruct (truthy name_equals), (truthy name_contains),
    (truthy mimetype), (truthy parents_in); reflexivity.
Qed.

(** ** Resumable transfer loop: further properties *)

Lemma sleeps_app (l1 l2 : list event) :
  sleeps (l1 ++ l2) = (sleeps l1 ++ sleeps l2)%list.
Proof.
  induction l1 as [|ev l1 IH]; [reflexivity |].
  destruct ev; simpl; now rewrite ?IH.
Qed.

Lemma executes_app (l1 l2 : list event) :
  executes (l1 ++ l2) = (executes l1 ++ executes l2)%list.
Proof.
  induction l1 as [|ev l1 IH]; [reflexivity |].
  destruct ev; simpl; now rewrite ?IH.
Qed.

Section TransferLoopInvariants.

Variable execute : request -> result response.
Variable next_chunk : nat -> chunk_result.
Variable random : nat -> Q.

(** What one iteration does, case by case. *)
Lemma loop_body_cases (st : loop_state) (w : world) :
  (exists (p : option Q) (r : option response),
      next_chunk (calls w) = ChunkOk p r
      /\ loop_body next_chunk random st w
         = (Ok {| progressless_iters := 0; st_response := r; st_progress := p |},
            report_progress p (tick_call w)))
  \/ (exists e : exn,
         next_chunk (calls w) = ChunkRaise e
         /\ retryable e = false
         /\ loop_body next_chunk random st w = (Raise e, tick_call w))
  \/ (exists e : exn,
         next_chunk (calls w) = ChunkRaise e
         /\ retryable e = true
         /\ (NUM_RETRIES < progressless_iters st + 1)%Z
         /\ loop_body next_chunk random st w = (Raise e, emit EvGiveUp (tick_call w)))
  \/ (exists e : exn,
         next_chunk (calls w) = ChunkRaise e
         /\ retryable e = true
         /\ (progressless_iters st + 1 <= NUM_RETRIES)%Z
         /\ loop_body next_chunk random st w
            = (Ok (retried st), slept random e st (tick_call w))).
Proof.
  destruct (next_chunk (calls w)) as [p r|e] eqn:Hcall.
  - left. exists p, r. split; [reflexivity |]. unfold loop_body. now rewrite Hcall.
  - right. rewrite (loop_body_raise next_chunk random st w e Hcall), on_error_unfold.
    destruct (retryable e) eqn:He.
    + right. destruct (Z.gtb_spec (progressless_iters st + 1) NUM_RETRIES).
      * left. exists e. split; [reflexivity |]. split; [exact He |].
        split; [lia | reflexivity].
      * right. exists e. split; [reflexivity |]. split; [exact He |].
        split; [lia | reflexivity].
    + left. exists e. split; [reflexivity |]. split; [exact He | reflexivity].
Qed.

Lemma report_progress_log (p : option Q) (w : world) :
  calls (report_progress p w) = calls w
  /\ rands (report_progress p w) = rands w
  /\ sleeps (log (report_progress p w)) = sleeps (log w)
  /\ executes (log (report_progress p w)) = executes (log w).
Proof.
  destruct p as [q|]; simpl; rewrite ?sleeps_app, ?executes_app; simpl;
    now rewrite ?app_nil_r.
Qed.

Lemma backoff_below_cap (r : Q) (k : Z) :
  (0 <= r < 1)%Q -> (1 <= k <= NUM_RETRIES)%Z ->
  (0 <= r * inject_Z (2 ^ k) < inject_Z (2 ^ NUM_RETRIES))%Q.
Proof.
  intros Hr Hk.
  destruct (backoff_bound r k Hr ltac:(lia)) as [Hlo Hhi].
  split; [exact Hlo |].
  eapply Qlt_le_trans; [exact Hhi |].
  rewrite <- Zle_Qle. apply Z.pow_le_mono_r; lia.
Qed.

(** X5: whatever the chunk function does, the retry counter stays between
    0 and 5 at the head of the loop and, with [random()] in [0, 1), no
    sleep of the loop lasts 2 ** 5 = 32 seconds or more; when the loop is
    left normally a response is there and the counter is within the same
    range. *)
Theorem transfer_loop_invariant
        (fuel : nat) (st : loop_state) (w w' : world) (r : result loop_state) :
  (forall i : nat, (0 <= random i < 1)%Q) ->
  (0 <= progressless_iters st <= NUM_RETRIES)%Z ->
  Forall (fun t : Q => (0 <= t < inject_Z (2 ^ NUM_RETRIES))%Q) (sleeps (log w)) ->
  transfer_loop next_chunk random fuel st w = Some (r, w') ->
  Forall (fun t : Q => (0 <= t < inject_Z (2 ^ NUM_RETRIES))%Q) (sleeps (log w'))
  /\ match r with
     | Ok st' =>
         (0 <= progressless_iters st' <= NUM_RETRIES)%Z /\ st_response st' <> None
     | Raise _ => True
     end.
Proof.
  intros Hrandom. revert st w.
  induction fuel as [|fuel IH]; intros st w Hst Hw Hrun.
  - simpl in Hrun. destruct (st_response st) eqn:Hr; [| discriminate Hrun].
    injection Hrun as <- <-. split; [exact Hw |]. split; [exact Hst | congruence].
  - cbn [transfer_loop] in Hrun.
    destruct (st_response st) eqn:Hr.
    { injection Hrun as <- <-. split; [exact Hw |]. split; [exact Hst | congruence]. }
    destruct (loop_body_cases st w)
      as [(p & rsp & _ & Hb) | [(e & _ & _ & Hb) | [(e & _ & _ & _ & Hb)
          | (e & _ & _ & Hk & Hb)]]]; rewrite Hb in Hrun.
    + apply IH in Hrun; [exact Hrun | simpl; unfold NUM_RETRIES; lia |].
      now rewrite (proj1 (proj2 (proj2 (report_progress_log p (tick_call w))))).
    + injection Hrun as <- <-. split; [exact Hw | exact I].
    + injection Hrun as <- <-. split; [| exact I].
      simpl. rewrite sleeps_app. simpl. now rewrite app_nil_r.
    + apply IH in Hrun; [exact Hrun | simpl; lia |].
      unfold slept. simpl. rewrite !sleeps_app. simpl. rewrite app_nil_r.
      apply Forall_app. split; [exact Hw |].
      constructor; [| constructor].
      apply backoff_below_cap; [apply Hrandom | lia].
Qed.

(** X6: an error that leaves the resumable loop is the error the last
    call of the chunk function raised, unchanged; when that error is a
    retryable one the budget was used up, and the give-up message is the
    last thing logged. *)
Theorem transfer_loop_raises_last_error
        (fuel : nat) (st : loop_state) (w w' : world) (e : exn) :
  transfer_loop next_chunk random fuel st w = Some (Raise e, w') ->
  calls w < calls w'
  /\ next_chunk (calls w' - 1) = ChunkRaise e
  /\ (retryable e = true -> exists l : list event, log w' = (l ++ [EvGiveUp])%list).
Proof.
  revert st w.
  induction fuel as [|fuel IH]; intros st w Hrun.
  - simpl in Hrun. destruct (st_response st); discriminate Hrun.
  - cbn [transfer_loop] in Hrun.
    destruct (st_response st); [discriminate Hrun |].
    destruct (loop_body_cases st w)
      as [(p & rsp & _ & Hb) | [(e' & Hc & He & Hb) | [(e' & Hc & He & _ & Hb)
          | (e' & _ & _ & _ & Hb)]]]; rewrite Hb in Hrun.
    + apply IH in Hrun. destruct Hrun as (Hlt & Hrest).
      rewrite (proj1 (report_progress_log p (tick_call w))) in Hlt. simpl in Hlt.
      split; [lia | exact Hrest].
    + injection Hrun as <- <-. simpl. rewrite Nat.sub_0_r.
      split; [lia |]. split; [exact Hc | congruence].
    + injection Hrun as <- <-. simpl. rewrite Nat.sub_0_r.
      split; [lia |]. split; [exact Hc |]. intros _. now eexists.
    + apply IH in Hrun. destruct Hrun as (Hlt & Hrest). simpl in Hlt.
      split; [lia | exact Hrest].
Qed.

Lemma transfer_loop_returns_last_response
      (fuel : nat) (st st' : loop_state) (w w' : world) :
  st_response st = None ->
  transfer_loop next_chunk random fuel st w = Some (Ok st', w') ->
  calls w < calls w'
  /\ exists (p : option Q) (resp : response),
      next_chunk (calls w' - 1) = ChunkOk p (Some resp)
      /\ st' = {| progressless_iters := 0; st_response := Some resp; st_progress := p |}.
Proof.
  revert st w.
  induction fuel as [|fuel IH]; intros st w Hnone Hrun.
  - simpl in Hrun. rewrite Hnone in Hrun. discriminate Hrun.
  - cbn [transfer_loop] in Hrun. rewrite Hnone in Hrun.
    destruct (loop_body_cases st w)
      as [(p & rsp & Hc & Hb) | [(e' & _ & _ & Hb) | [(e' & _ & _ & _ & Hb)
          | (e' & _ & _ & _ & Hb)]]]; rewrite Hb in Hrun; try discriminate Hrun.
    + destruct rsp as [resp|].
      * erewrite transfer_loop_done in Hrun by reflexivity.
        injection Hrun as <- <-.
        rewrite (proj1 (report_progress_log p (tick_call w))). simpl.
        rewrite Nat.sub_0_r. split; [lia |]. now exists p, resp.
      * apply IH in Hrun; [| reflexivity]. destruct Hrun as (Hlt & Hrest).
        rewrite (proj1 (report_progress_log p (tick_call w))) in Hlt. simpl in Hlt.
        split; [lia | exact Hrest].
    + apply IH in Hrun; [| exact Hnone]. destruct Hrun as (Hlt & Hrest).
      simpl in Hlt. split; [lia | exact Hrest].
Qed.

(** X7: a resumable request that ends normally was ended by a chunk call
    that returned a final response, the last call made, and
    [_execute_file_request] returns [None] for it whatever that response
    is. *)
Theorem resumable_request_result
        (fuel : nat) (req : request) (w w' : world) (r : pyret) :
  resumable req = true ->
  _execute_file_request execute next_chunk random fuel req w = Some (Ok r, w') ->
  r = RNone
  /\ calls w < calls w'
  /\ exists (p : option Q) (resp : response),
      next_chunk (calls w' - 1) = ChunkOk p (Some resp).
Proof.
  intros Hres Hrun. unfold _execute_file_request in Hrun.
  rewrite Hres in Hrun. cbn [negb] in Hrun.
  destruct (transfer_loop next_chunk random fuel loop_state0 w)
    as [[[st'|e] w1]|] eqn:Hloop; try discriminate Hrun.
  injection Hrun as <- <-.
  apply transfer_loop_returns_last_response in Hloop; [| reflexivity].
  destruct Hloop as (Hlt & p & resp & Hc & _).
  rewrite (proj1 (report_progress_log (st_progress st') w1)).
  split; [reflexivity |]. split; [exact Hlt |]. now exists p, resp.
Qed.

Lemma transfer_loop_executes
      (fuel : nat) (st : loop_state) (w w' : world) (r : result loop_state) :
  transfer_loop next_chunk random fuel st w = Some (r, w') ->
  executes (log w') = executes (log w).
Proof.
  revert st w.
  induction fuel as [|fuel IH]; intros st w Hrun.
  - simpl in Hrun. destruct (st_response st); [| discriminate Hrun].
    now injection Hrun as <- <-.
  - cbn [transfer_loop] in Hrun.
    destruct (st_response st); [now injection Hrun as <- <- |].
    destruct (loop_body_cases st w)
      as [(p & rsp & _ & Hb) | [(e' & _ & _ & Hb) | [(e' & _ & _ & _ & Hb)
          | (e' & _ & _ & _ & Hb)]]]; rewrite Hb in Hrun.
    + apply IH in Hrun. rewrite Hrun.
      now rewrite (proj2 (proj2 (proj2 (report_progress_log p (tick_call w))))).
    + now injection Hrun as <- <-.
    + injection Hrun as <- <-. simpl. rewrite executes_app. simpl.
      now rewrite app_nil_r.
    + apply IH in Hrun. rewrite Hrun. unfold slept. simpl.
      rewrite !executes_app. simpl. now rewrite !app_nil_r.
Qed.

(** X9: the two branches of [_execute_file_request] keep apart: a
    resumable request never calls [execute()]; a request that is not
    resumable calls [execute()] exactly once and never asks for a chunk,
    draws a random number or sleeps, so an error of [execute()] is not
    retried. *)
Theorem execute_file_request_effects
        (fuel : nat) (req : request) (w w' : world) (r : result pyret) :
  _execute_file_request execute next_chunk random fuel req w = Some (r, w') ->
  if resumable req
  then executes (log w') = executes (log w)
  else calls w' = calls w /\ rands w' = rands w
       /\ log w' = (log w ++ [EvExecute req])%list
       /\ (forall e : exn, execute req = Raise e -> r = Raise e).
Proof.
  intros Hrun. unfold _execute_file_request in Hrun.
  destruct (resumable req); cbn [negb] in Hrun.
  - destruct (transfer_loop next_chunk random fuel loop_state0 w)
      as [[[st'|e] w1]|] eqn:Hloop; try discriminate Hrun;
      injection Hrun as <- <-; apply transfer_loop_executes in Hloop.
    + now rewrite (proj2 (proj2 (proj2 (report_progress_log (st_progress st') w1)))).
    + exact Hloop.
  - destruct (execute req) as [resp|e].
    + destruct (dict_get "files" resp) as [fs|].
      * destruct (py_iter fs); injection Hrun as <- <-;
          (repeat split; intros; discriminate).
      * destruct (dict_get "file" resp); injection Hrun as <- <-;
          (repeat split; intros; discriminate).
    + injection Hrun as <- <-. repeat split. intros e' He. congruence.
Qed.

(** X8: progress renews the budget: after a chunk call that succeeds
    without a final response, whatever the retry counter was before, it
    takes six failing calls in a row to leave the loop; the first five are
    followed by sleeps of [random() * 2 ** k] for k = 1 .. 5 and the sixth
    error is raised. *)
Theorem progress_renews_budget
        (fuel : nat) (st : loop_state) (w : world) (p : option Q) :
  st_response st = None ->
  next_chunk (calls w) = ChunkOk p None ->
  (forall i : nat, i < 6 ->
     exists e : exn,
       next_chunk (i + 1 + calls w) = ChunkRaise e /\ retryable e = true) ->
  7 <= fuel ->
  exists (e : exn) (w' : world),
    next_chunk (6 + calls w) = ChunkRaise e
    /\ transfer_loop next_chunk random fuel st w = Some (Raise e, w')
    /\ calls w' = 7 + calls w
    /\ rands w' = 5 + rands w
    /\ sleeps (log w')
       = (sleeps (log w)
          ++ [(random (rands w) * inject_Z (2 ^ 1))%Q;
              (random (1 + rands w) * inject_Z (2 ^ 2))%Q;
              (random (2 + rands w) * inject_Z (2 ^ 3))%Q;
              (random (3 + rands w) * inject_Z (2 ^ 4))%Q;
              (random (4 + rands w) * inject_Z (2 ^ 5))%Q])%list.
Proof.
  intros Hnone Hok Hraise Hfuel.
  destruct (Hraise 0 ltac:(lia)) as (e0 & H0 & R0).
  destruct (Hraise 1 ltac:(lia)) as (e1 & H1 & R1).
  destruct (Hraise 2 ltac:(lia)) as (e2 & H2 & R2).
  destruct (Hraise 3 ltac:(lia)) as (e3 & H3 & R3).
  destruct (Hraise 4 ltac:(lia)) as (e4 & H4 & R4).
  destruct (Hraise 5 ltac:(lia)) as (e5 & H5 & R5).
  destruct fuel as [|[|[|[|[|[|[|fuel]]]]]]]; try lia.
  exists e5.
  erewrite transfer_loop_ok; [| exact Hnone | exact Hok].
  assert (Hw : calls (report_progress p (tick_call w)) = S (calls w)
               /\ rands (report_progress p (tick_call w)) = rands w
               /\ sleeps (log (report_progress p (tick_call w))) = sleeps (log w)).
  { destruct (report_progress_log p (tick_call w)) as (Hc & Hr & Hs & _).
    now rewrite Hc, Hr, Hs. }
  destruct Hw as (Hc & Hr & Hs).
  remember (report_progress p (tick_call w)) as w1 eqn:Hw1. clear Hw1.
  erewrite transfer_loop_retry;
    [| reflexivity | rewrite Hc; exact H0 | exact R0 | unfold NUM_RETRIES; cbn; lia].
  erewrite transfer_loop_retry;
    [| reflexivity | cbn; rewrite Hc; exact H1 | exact R1 | unfold NUM_RETRIES; cbn; lia].
  erewrite transfer_loop_retry;
    [| reflexivity | cbn; rewrite Hc; exact H2 | exact R2 | unfold NUM_RETRIES; cbn; lia].
  erewrite transfer_loop_retry;
    [| reflexivity | cbn; rewrite Hc; exact H3 | exact R3 | unfold NUM_RETRIES; cbn; lia].
  erewrite transfer_loop_retry;
    [| reflexivity | cbn; rewrite Hc; exact H4 | exact R4 | unfold NUM_RETRIES; cbn; lia].
  erewrite transfer_loop_give_up;
    [| reflexivity | cbn; rewrite Hc; exact H5 | exact R5 | unfold NUM_RETRIES; cbn; lia].
  eexists. split; [exact H5 |]. split; [reflexivity |].
  cbn [calls rands log emit tick_call tick_rand slept retried backoff
       progressless_iters].
  rewrite Hc, Hr. split; [reflexivity |]. split; [reflexivity |].
  rewrite !sleeps_app, Hs. cbn [sleeps]. rewrite !app_nil_r, <- !app_assoc.
  unfold backoff, slept.
  cbn [calls rands log emit tick_call tick_rand retried progressless_iters].
  rewrite Hr. reflexivity.
Qed.

End TransferLoopInvariants.

(** ** [update_file] and the methods built on it *)

(** X10: the [kw] dictionary of [update_file] always maps [fileId] to the
    file id, holds [removeParents] and [addParents] exactly for the id
    lists that are not empty, and a request is executed exactly when some
    modification argument is true in a condition; otherwise the method
    returns [None] and does nothing. *)
Theorem update_file_requests_iff_modified
        (execute : request -> result response) (next_chunk : nat -> chunk_result)
        (random : nat -> Q) (service : api_call -> request)
        (fuel : nat) (file_id : string)
        (remove_parents_ids add_parents_ids : option (list string))
        (name : pyval) (media : option media_upload)
        (supports_all_drives : bool) (w : world) :
  let kw := update_file_kw file_id remove_parents_ids add_parents_ids name media
                           supports_all_drives in
  kw !! "fileId" = Some (KStr file_id)
  /\ kw !! "removeParents"
     = (if truthy_ids remove_parents_ids
        then Some (KStr (join_ids remove_parents_ids)) else None)
  /\ kw !! "addParents"
     = (if truthy_ids add_parents_ids
        then Some (KStr (join_ids add_parents_ids)) else None)
  /\ update_file execute next_chunk random service fuel file_id
       remove_parents_ids add_parents_ids name media supports_all_drives w
     = if truthy_ids remove_parents_ids || truthy_ids add_parents_ids
          || truthy name || is_some media || supports_all_drives
       then _execute_file_request execute next_chunk random fuel
              (service (FilesUpdate kw)) w
       else Some (Ok RNone, w).
Proof.
  unfold update_file, update_file_kw. cbv zeta.
  destruct (truthy_ids remove_parents_ids), (truthy_ids add_parents_ids),
    (truthy name), media as [m|], supports_all_drives;
    (split; [reflexivity |]; split; [reflexivity |]; split; reflexivity).
Qed.

Section ClientMethodsFacts.

Variable execute : request -> result response.
Variable next_chunk : nat -> chunk_result.
Variable random : nat -> Q.
Variable service : api_call -> request.
Variable files_get : pyval -> list (string * pyval) -> result response.
Variable shared_request : bool -> request.
Variable File_name : File -> pyval.
Variable File_is_directory : File -> bool.
Variable File_truthy : File -> bool.
Variable File_getitem0 : File -> cresult pyret.
Variable File_iter : File -> cresult (list File).

(** X11: [rename_file] sends an update whose only change is the body with
    the new name, with [supportsAllDrives] when asked for; called with an
    empty name (or [None]) and [supports_all_drives] false it sends
    nothing, returns [None] and raises no error. *)
Theorem rename_file_request
        (fuel : nat) (file_id : string) (name : pyval)
        (supports_all_drives : bool) (w : world) :
  rename_file execute next_chunk random service fuel file_id name
              supports_all_drives w
  = if truthy name || supports_all_drives
    then _execute_file_request execute next_chunk random fuel
           (service (FilesUpdate
              ((if supports_all_drives
                then <["supportsAllDrives" := KBool true]> else (fun kw => kw))
                 ((if truthy name then <["body" := KBody name]> else (fun kw => kw))
                    ({[ "fileId" := KStr file_id ]} : gmap string kwval))))) w
    else Some (Ok RNone, w).
Proof.
  unfold rename_file, update_file, update_file_kw. cbv zeta.
  destruct (truthy name), supports_all_drives; reflexivity.
Qed.

Lemma json_strings_map (ids : list string) :
  json_strings (map JStr ids) = Some ids.
Proof.
  induction ids as [|s ids IH]; [reflexivity |].
  simpl. now rewrite IH.
Qed.

(** X12: [move_file_to_folder] first reads the parents of the file: when
    that call raises, or the answer has no [parents] key ([KeyError]),
    nothing is updated.  With a list of parent ids it always executes one
    update, whose [addParents] is the folder id and whose [removeParents]
    is the comma-joined list of all current parents, left out when there
    are none; name and media are not touched. *)
Theorem move_file_to_folder_request
        (fuel : nat) (file_id folder_id : string)
        (supports_all_drives : bool) (w : world) :
  let get := files_get (VStr file_id)
               [("fields", VStr "parents");
                ("supportsAllDrives", VBool supports_all_drives)] in
  (forall e : exn,
      get = Raise e ->
      move_file_to_folder execute next_chunk random service files_get
        fuel file_id folder_id supports_all_drives w
      = Some (CRaise (Propagated e), w))
  /\ (forall resp : response,
         get = Ok resp -> dict_get "parents" resp = None ->
         move_file_to_folder execute next_chunk random service files_get
           fuel file_id folder_id supports_all_drives w
         = Some (CRaise (KeyError "parents"), w))
  /\ (forall (resp : response) (parents : list string),
         get = Ok resp ->
         dict_get "parents" resp = Some (JArr (map JStr parents)) ->
         exists kw : gmap string kwval,
           move_file_to_folder execute next_chunk random service files_get
             fuel file_id folder_id supports_all_drives w
           = match _execute_file_request execute next_chunk random fuel
                     (service (FilesUpdate kw)) w with
             | None => None
             | Some (r, w') => Some (lift r, w')
             end
           /\ kw !! "fileId" = Some (KStr file_id)
           /\ kw !! "addParents" = Some (KStr folder_id)
           /\ kw !! "removeParents"
              = match parents with
                | [] => None
                | _ => Some (KStr (str_join "," parents))
                end
           /\ kw !! "body" = None
           /\ kw !! "media_body" = None).
Proof.
  cbv zeta. unfold move_file_to_folder.
  split; [| split].
  - intros e Hget. now rewrite Hget.
  - intros resp Hget Hkey. now rewrite Hget, Hkey.
  - intros resp parents Hget Hkey. rewrite Hget, Hkey.
    unfold ids_of_json, update_file, update_file_kw. cbv zeta.
    destruct parents as [|p parents].
    + destruct supports_all_drives; eexists;
        (split; [reflexivity |]); repeat split; reflexivity.
    + cbn [json_truthy map negb py_iter json_strings].
      rewrite json_strings_map. cbn [option_map].
      destruct supports_all_drives; eexists;
        (split; [reflexivity |]); repeat split; reflexivity.
Qed.

(** X13: [file_exists] with neither a name nor a file id raises
    [RuntimeError] before any request.  With a file id it only reads that
    file's metadata, whatever name and parent were given: it returns the
    file, or [None] when the metadata are empty or the read raised an
    [HttpError] of any status; another error of the read is passed on. *)
Theorem file_exists_by_id
        (fuel : nat) (name file_id parent_id : pyval)
        (supports_all_drives : bool) (w : world) :
  (truthy name = false -> truthy file_id = false ->
   file_exists execute next_chunk random service files_get File_truthy File_getitem0
     fuel name file_id parent_id supports_all_drives w
   = Some (CRaise (RuntimeError "You must provide a name or file_id"), w))
  /\ (truthy file_id = true ->
      file_exists execute next_chunk random service files_get File_truthy File_getitem0
        fuel name file_id parent_id supports_all_drives w
      = Some (match files_get file_id [("supportsAllDrives", VBool supports_all_drives)] with
              | Ok [] => COk RNone
              | Ok fm => COk (RFile {| f_metadata := JObj fm;
                                       f_supports_all_drives := supports_all_drives |})
              | Raise (HttpError _) => COk RNone
              | Raise e => CRaise (Propagated e)
              end, w)).
Proof.
  unfold file_exists, get_file, get_file_metadata. split.
  - intros Hname Hid. now rewrite Hname, Hid.
  - intros Hid. rewrite Hid, andb_false_r.
    destruct (files_get file_id _) as [[|kv fm]|[status| | | |]]; reflexivity.
Qed.

(** X14: [get_file_by_name] lists with page size 1 and the query
    [trashed = false], then [name = ...] and [... in parents] for a name
    and a parent id that are not empty; so with an empty name and no
    parent the query is [trashed = false] alone.  From a listing it
    returns the first file, and raises [FileNotFoundException] with the
    name when the listing is empty. *)
Theorem get_file_by_name_result
        (fuel : nat) (name parent_id : pyval) (supports_all_drives : bool)
        (w w' : world) (files : list File) :
  let q := str_join " and "
             ("trashed = false"
              :: opt_part name ("name = " ++ _serialize_query_value name)
              ++ opt_part parent_id
                   (_serialize_query_value parent_id ++ " in parents"))%list in
  _execute_file_request execute next_chunk random fuel
    (service (FilesList q (VInt 1) supports_all_drives supports_all_drives)) w
  = Some (Ok (RFiles files), w') ->
  get_file_by_name execute next_chunk random service File_truthy File_getitem0
    fuel name parent_id supports_all_drives w
  = Some (match files with
          | [] => CRaise (FileNotFoundException name)
          | f :: _ => COk (RFile f)
          end, w').
Proof.
  cbv zeta. intros Hrun. unfold get_file_by_name, list_files.
  rewrite list_files_query_shape.
  replace (opt_part (if truthy parent_id then parent_id else VNone)
             (_serialize_query_value (if truthy parent_id then parent_id else VNone)
              ++ " in parents"))
    with (opt_part parent_id (_serialize_query_value parent_id ++ " in parents"))
    by (unfold opt_part; destruct (truthy parent_id) eqn:Hp;
        cbn [truthy]; rewrite ?Hp; reflexivity).
  cbn [opt_part truthy app].
  rewrite Hrun. now destruct files.
Qed.

Lemma shared_loop_find (files : list File) (name is_directory : pyval) :
  shared_loop File_name File_is_directory files name is_directory
  = List.find (shared_match File_name File_is_directory name is_directory) files.
Proof.
  induction files as [|f files IH]; [reflexivity |].
  cbn [shared_loop List.find]. rewrite IH. unfold shared_match.
  destruct (py_eq (File_name f) name); [| reflexivity].
  destruct is_directory as [|[|]|z|s]; cbn [py_is_False truthy andb];
    destruct (File_is_directory f); try reflexivity;
    match goal with
    | |- context [negb (?a =? ?b)%Z] => destruct (a =? b)%Z; reflexivity
    | |- context [negb (String.eqb ?a ?b)] => destruct (String.eqb a b); reflexivity
    end.
Qed.

Lemma find_first {A : Type} (P : A -> bool) (l : list A) :
  match List.find P l with
  | Some x =>
      exists before after : list A,
        l = (before ++ x :: after)%list /\ P x = true
        /\ Forall (fun y => P y = false) before
  | None => Forall (fun y => P y = false) l
  end.
Proof.
  induction l as [|a l IH]; [constructor |].
  cbn [List.find]. destruct (P a) eqn:Ha.
  - exists [], l. repeat split; [exact Ha | constructor].
  - destruct (List.find P l) as [x|].
    + destruct IH as (before & after & -> & Hx & Hbefore).
      exists (a :: before), after. repeat split; [exact Hx | now constructor].
    + now constructor.
Qed.

(** X15: from a listing of shared files [get_shared_file] returns the
    first file, in the order of the listing, whose name equals the name
    asked for and whose kind fits: a directory when [is_directory] is true,
    not a directory when it is [False], either when it is [None]; files
    before it do not match.  When no file matches it raises
    [FileNotFoundException] if [raise_if_not_found] is set and returns
    [None] otherwise. *)
Theorem get_shared_file_first_match
        (fuel : nat) (name is_directory : pyval)
        (raise_if_not_found supports_all_drives : bool)
        (w w' : world) (files : list File) :
  files_shared_with_me execute next_chunk random shared_request
    fuel supports_all_drives w
  = Some (Ok (RFiles files), w') ->
  exists res : cresult pyret,
    get_shared_file execute next_chunk random shared_request
      File_name File_is_directory File_iter
      fuel name is_directory raise_if_not_found supports_all_drives w
    = Some (res, w')
    /\ match res with
       | COk (RFile f) =>
           exists before after : list File,
             files = (before ++ f :: after)%list
             /\ shared_match File_name File_is_directory name is_directory f = true
             /\ Forall (fun g => shared_match File_name File_is_directory
                                   name is_directory g = false) before
       | COk RNone =>
           raise_if_not_found = false
           /\ Forall (fun g => shared_match File_name File_is_directory
                                 name is_directory g = false) files
       | CRaise e =>
           raise_if_not_found = true
           /\ e = FileNotFoundException name
           /\ Forall (fun g => shared_match File_name File_is_directory
                                 name is_directory g = false) files
       | COk (RFiles _) => False
       end.
Proof.
  intros Hlist. unfold get_shared_file. rewrite Hlist. cbn [ret_iter].
  rewrite shared_loop_find.
  pose proof (find_first (shared_match File_name File_is_directory name is_directory)
                files) as Hfind.
  destruct (List.find _ files) as [f|].
  - eexists. split; [reflexivity | exact Hfind].
  - destruct raise_if_not_found; eexists; (split; [reflexivity |]);
      repeat split; exact Hfind.
Qed.

(** X16: [get_shared_directory] never returns [None] from a listing: it
    returns a file that is a directory and has the name asked for, the
    first such file of the listing, or raises [FileNotFoundException]. *)
Theorem get_shared_directory_result
        (fuel : nat) (name : pyval) (supports_all_drives : bool)
        (w w' : world) (files : list File) :
  files_shared_with_me execute next_chunk random shared_request
    fuel supports_all_drives w
  = Some (Ok (RFiles files), w') ->
  (exists f : File,
      get_shared_directory execute next_chunk random shared_request
        File_name File_is_directory File_iter fuel name supports_all_drives w
      = Some (COk (RFile f), w')
      /\ In f files
      /\ py_eq (File_name f) name = true
      /\ File_is_directory f = true)
  \/ (get_shared_directory execute next_chunk random shared_request
        File_name File_is_directory File_iter fuel name supports_all_drives w
      = Some (CRaise (FileNotFoundException name), w')
      /\ forall f : File,
          In f files -> py_eq (File_name f) name = true ->
          File_is_directory f = false).
Proof.
  intros Hlist. unfold get_shared_directory.
  destruct (get_shared_file_first_match fuel name (VBool true) true
              supports_all_drives w w' files Hlist) as (res & Hres & Hspec).
  rewrite Hres.
  destruct res as [[|f|fs]|e].
  - destruct Hspec as [Hcontra _]. discriminate Hcontra.
  - left. exists f. split; [reflexivity |].
    destruct Hspec as (before & after & -> & Hmatch & _).
    unfold shared_match in Hmatch. cbn [truthy] in Hmatch.
    apply andb_prop in Hmatch. destruct Hmatch as [Hname Hdir].
    split; [apply in_or_app; right; now left | now split].
  - contradiction.
  - right. destruct Hspec as (_ & -> & Hnone). split; [reflexivity |].
    intros f Hin Hname. rewrite Forall_forall in Hnone.
    specialize (Hnone f). unfold shared_match in Hnone. cbn [truthy] in Hnone.
    rewrite Hname in Hnone. simpl in Hnone. apply Hnone.
    now apply list_elem_of_In.
Qed.

End ClientMethodsFacts.

(** ** Worked instances of the further properties *)

Lemma transfer_loop_invariant_witness :
  match transfer_loop chunks_always_transport demo_random 6 loop_state0 world0 with
  | Some (_, w') =>
      Forall (fun t : Q => (0 <= t < inject_Z (2 ^ NUM_RETRIES))%Q) (sleeps (log w'))
  | None => False
  end.
Proof.
  destruct (transfer_loop chunks_always_transport demo_random 6 loop_state0 world0)
    as [[r w']|] eqn:Hrun.
  - refine (proj1 (transfer_loop_invariant chunks_always_transport demo_random
                     6 loop_state0 world0 w' r demo_random_unit _ _ Hrun)).
    + unfold NUM_RETRIES. simpl. lia.
    + constructor.
  - vm_compute in Hrun. discriminate Hrun.
Defined.

Lemma transfer_loop_raises_last_error_witness :
  match transfer_loop chunks_always_transport demo_random 6 loop_state0 world0 with
  | Some (Raise e, w') => chunks_always_transport (calls w' - 1) = ChunkRaise e
  | _ => False
  end.
Proof.
  destruct (transfer_loop chunks_always_transport demo_random 6 loop_state0 world0)
    as [[[st'|e] w']|] eqn:Hrun.
  - vm_compute in Hrun. discriminate Hrun.
  - exact (proj1 (proj2 (transfer_loop_raises_last_error chunks_always_transport
                           demo_random 6 loop_state0 world0 w' e Hrun))).
  - vm_compute in Hrun. discriminate Hrun.
Defined.

Lemma resumable_request_result_witness :
  match _execute_file_request demo_execute chunks_503_503_ok demo_random 3
          demo_request world0 with
  | Some (Ok r, w') => r = RNone /\ calls world0 < calls w'
  | _ => False
  end.
Proof.
  destruct (_execute_file_request demo_execute chunks_503_503_ok demo_random 3
              demo_request world0) as [[[r|e] w']|] eqn:Hrun.
  - destruct (resumable_request_result demo_execute chunks_503_503_ok demo_random 3
                demo_request world0 w' r eq_refl Hrun) as (Hr & Hcalls & _).
    split; [exact Hr | exact Hcalls].
  - vm_compute in Hrun. discriminate Hrun.
  - vm_compute in Hrun. discriminate Hrun.
Defined.

Lemma progress_renews_budget_witness :
  exists (e : exn) (w' : world),
    chunks_progress_then_fail (6 + calls world0) = ChunkRaise e
    /\ transfer_loop chunks_progress_then_fail demo_random 7 loop_state0 world0
       = Some (Raise e, w')
    /\ calls w' = 7 + calls world0
    /\ rands w' = 5 + rands world0
    /\ sleeps (log w')
       = (sleeps (log world0)
          ++ [(demo_random (rands world0) * inject_Z (2 ^ 1))%Q;
              (demo_random (1 + rands world0) * inject_Z (2 ^ 2))%Q;
              (demo_random (2 + rands world0) * inject_Z (2 ^ 3))%Q;
              (demo_random (3 + rands world0) * inject_Z (2 ^ 4))%Q;
              (demo_random (4 + rands world0) * inject_Z (2 ^ 5))%Q])%list.
Proof.
  apply (progress_renews_budget chunks_progress_then_fail demo_random 7
           loop_state0 world0 (Some (1 # 4))).
  - reflexivity.
  - reflexivity.
  - intros i Hi. exists (HttpError 503).
    replace (i + 1 + calls world0) with (S i) by (simpl; lia).
    split; reflexivity.
  - lia.
Defined.

Lemma execute_file_request_effects_witness :
  match _execute_file_request demo_execute chunks_503_503_ok demo_random 3
          demo_request world0 with
  | Some (_, w') => executes (log w') = executes (log world0)
  | None => False
  end.
Proof.
  destruct (_execute_file_request demo_execute chunks_503_503_ok demo_random 3
              demo_request world0) as [[r w']|] eqn:Hrun.
  - exact (execute_file_request_effects demo_execute chunks_503_503_ok demo_random 3
             demo_request world0 w' r Hrun).
  - vm_compute in Hrun. discriminate Hrun.
Defined.

Lemma move_file_to_folder_request_witness :
  exists kw : gmap string kwval,
    move_file_to_folder demo_execute chunks_404 demo_random demo_service demo_files_get
      0 "f1" "archive" false world0
    = match _execute_file_request demo_execute chunks_404 demo_random 0
              (demo_service (FilesUpdate kw)) world0 with
      | None => None
      | Some (r, w') => Some (lift r, w')
      end
    /\ kw !! "addParents" = Some (KStr "archive")
    /\ kw !! "removeParents" = Some (KStr "p1,p2").
Proof.
  destruct (proj2 (proj2 (move_file_to_folder_request demo_execute chunks_404
                            demo_random demo_service demo_files_get
                            0 "f1" "archive" false world0))
              [("id", JStr "f1"); ("parents", JArr [JStr "p1"; JStr "p2"])]
              ["p1"; "p2"] eq_refl eq_refl)
    as (kw & Hmove & _ & Hadd & Hremove & _).
  exists kw. split; [exact Hmove |]. split; [exact Hadd | exact Hremove].
Defined.

Lemma file_exists_by_id_witness :
  truthy (VStr "locked") = true
  /\ file_exists demo_execute chunks_404 demo_random demo_service demo_files_get
       demo_File_truthy demo_File_getitem0
       0 (VStr "report.pdf") (VStr "locked") VNone false world0
     = Some (COk RNone, world0).
Proof.
  split; [reflexivity |].
  exact (proj2 (file_exists_by_id demo_execute chunks_404 demo_random demo_service
                  demo_files_get demo_File_truthy demo_File_getitem0
                  0 (VStr "report.pdf") (VStr "locked") VNone false world0) eq_refl).
Defined.

Lemma get_file_by_name_result_witness :
  exists w' : world,
    get_file_by_name demo_execute_listing chunks_404 demo_random demo_service
      demo_File_truthy demo_File_getitem0 0 (VStr "") VNone false world0
    = Some (COk (RFile {| f_metadata :=
                            JObj [("name", JStr "notes"); ("mimeType", JStr "text/plain")];
                          f_supports_all_drives := false |}), w').
Proof.
  eexists.
  apply (get_file_by_name_result demo_execute_listing chunks_404 demo_random
           demo_service demo_File_truthy demo_File_getitem0
           0 (VStr "") VNone false world0 _ demo_files).
  reflexivity.
Defined.

Lemma get_shared_file_first_match_witness :
  exists w' : world,
    get_shared_file demo_execute_listing chunks_404 demo_random demo_shared_request
      demo_File_name demo_File_is_directory demo_File_iter
      0 (VStr "reports") VNone true false world0
    = Some (COk (RFile {| f_metadata :=
                            JObj [("name", JStr "reports");
                                  ("mimeType", JStr "text/plain")];
                          f_supports_all_drives := false |}), w').
Proof.
  destruct (get_shared_file_first_match demo_execute_listing chunks_404 demo_random
              demo_shared_request demo_File_name demo_File_is_directory demo_File_iter
              0 (VStr "reports") VNone true false world0
              (emit (EvExecute (demo_shared_request false)) world0) demo_files eq_refl)
    as (res & Hres & _).
  eexists. rewrite Hres. vm_compute in Hres.
  injection Hres as <-. reflexivity.
Defined.

Lemma get_shared_directory_result_witness :
  exists w' : world,
    get_shared_directory demo_execute_listing chunks_404 demo_random
      demo_shared_request demo_File_name demo_File_is_directory demo_File_iter
      0 (VStr "reports") false world0
    = Some (COk (RFile {| f_metadata :=
                            JObj [("name", JStr "reports");
                                  ("mimeType", JStr demo_folder_mimetype)];
                          f_supports_all_drives := false |}), w').
Proof.
  destruct (get_shared_directory_result demo_execute_listing chunks_404 demo_random
              demo_shared_request demo_File_name demo_File_is_directory demo_File_iter
              0 (VStr "reports") false world0
              (emit (EvExecute (demo_shared_request false)) world0) demo_files eq_refl)
    as [(f & Hres & _) | (Hres & _)];
    eexists; rewrite Hres; vm_compute in Hres; injection Hres as <-; reflexivity.
Defined.
